(** * Beastmaster's Ledge: the data pipeline of [hello.py]

    A shallow embedding of the script's data transformations: the
    challenge-rating parser [parse_cr], the two derived columns, the
    slider defaults, the filter stage [df_filt] and the two survivability
    rankings [top10] / [bot10], followed by the properties that the
    specification states about them.

    Conventions.
    - A Python call that can raise returns a [result]; [Raise e] is an
      exception that propagates, and the script has no handler outside
      [parse_cr].
    - Floats are IEEE binary64 values ([spec_float] at precision 53).
    - A cell of the columns [ac] and [hp] is the integer it holds, or
      [None] for a missing cell (pandas' NaN).  A column without a
      missing cell is an [int64] column and one with a missing cell a
      [float64] column; the product of two columns wraps around or is
      rounded accordingly.
    - A data frame is the list of its rows, in index order; a column is the
      list of the cells of one field. *)

From Stdlib Require Import ZArith QArith Qreduction List String Ascii Bool Lia.
From Stdlib Require Import Permutation Sorted.
From Stdlib Require Import Floats.SpecFloat.
From Stdlib Require Decimal DecimalString DecimalPos DecimalN DecimalZ.
Import ListNotations.

#[local] Open Scope Z_scope.

(* ================================================================== *)
(** * Exceptions *)

Inductive exn : Type :=
| ValueError
| TypeError
| ZeroDivisionError
| OverflowError.

Inductive result (A : Type) : Type :=
| Ret (a : A)
| Raise (e : exn).

Arguments Ret {A} a.
Arguments Raise {A} e.

Definition bind {A B : Type} (m : result A) (k : A -> result B) : result B :=
  match m with
  | Ret a => k a
  | Raise e => Raise e
  end.

Notation "x <- m ;; k" := (bind m (fun x => k))
  (at level 61, m at next level, right associativity).

Definition returns {A : Type} (m : result A) : Prop :=
  exists a, m = Ret a.

(* ================================================================== *)
(** * IEEE binary64 *)

Module Binary64.

Definition prec : Z := 53.
Definition emax : Z := 1024.

Definition float : Type := spec_float.

Definition nan : float := S754_nan.
Definition zero : float := S754_zero false.
Definition neg_inf : float := S754_infinity true.

Definition is_nan (x : float) : bool :=
  match x with S754_nan => true | _ => false end.

Definition is_inf (x : float) : bool :=
  match x with S754_infinity _ => true | _ => false end.

(** [x <= y] and [x >= y] as IEEE comparisons: false when either side
    is NaN. *)
Definition fle (x y : float) : bool := SFleb x y.
Definition fge (x y : float) : bool := SFleb y x.

(** The double nearest to [n / d] (ties to even), for [0 <= n] and
    [0 < d], carrying the sign [neg]; an infinity when the quotient is
    too large. *)
Definition round_ratio (neg : bool) (n d : Z) : float :=
  match n with
  | Zpos _ =>
      let '(q, e, l) := SFdiv_core_binary prec emax n 0 d 0 in
      binary_round_aux prec emax neg q e l
  | _ => S754_zero neg
  end.

(** Rounding of a non-negative rational with an explicit sign.  It works
    on the reduced fraction, so it depends on the value of [q] only. *)
Definition signed_nearest (neg : bool) (q : Q) : float :=
  let r := Qred q in
  round_ratio neg (Qnum r) (Zpos (Qden r)).

(** The double nearest to the rational [q]. *)
Definition nearest (q : Q) : float :=
  signed_nearest (Qnum q <? 0) (Z.abs (Qnum q) # Qden q).

End Binary64.

Import Binary64.

(* ================================================================== *)
(** * The Python built-ins that [parse_cr] calls

    Strings are ASCII text.  The models follow CPython 3.12: [str in],
    [isinstance], [float], [fractions.Fraction] on a string and
    [Fraction.__float__]. *)

Module Py.

(** The values a cell of the [cr] column can hold. *)
Inductive object : Type :=
| PyNone
| PyBool (b : bool)
| PyInt (z : Z)
| PyFloat (x : float)
| PyStr (s : string)
| PyOther.                    (* a value with no conversion to float *)

Definition chars (s : string) : list ascii := list_ascii_of_string s.

(** ** Character classes *)

Definition is_digit (c : ascii) : bool :=
  let n := N_of_ascii c in ((48 <=? n) && (n <=? 57))%N.

Definition digit_value (c : ascii) : Z := Z.of_N (N_of_ascii c) - 48.

(** The six ASCII whitespace characters, which [float] strips. *)
Definition is_space (c : ascii) : bool :=
  let n := N_of_ascii c in (((9 <=? n) && (n <=? 13)) || (n =? 32))%N.

(** [\s] of the [re] module on a [str]: the four separators 0x1c..0x1f
    count as whitespace too. *)
Definition re_space (c : ascii) : bool :=
  let n := N_of_ascii c in (is_space c || ((28 <=? n) && (n <=? 31)))%N.

Definition lower (c : ascii) : ascii :=
  let n := N_of_ascii c in
  if ((65 <=? n) && (n <=? 90))%N then ascii_of_N (n + 32) else c.

Fixpoint lstrip (sp : ascii -> bool) (s : list ascii) : list ascii :=
  match s with
  | c :: s' => if sp c then lstrip sp s' else s
  | [] => []
  end.

Definition rstrip (sp : ascii -> bool) (s : list ascii) : list ascii :=
  rev (lstrip sp (rev s)).

Definition strip (sp : ascii -> bool) (s : list ascii) : list ascii :=
  rstrip sp (lstrip sp s).

(** ['/' in cr] *)
Definition contains (c : ascii) (s : string) : bool :=
  existsb (Ascii.eqb c) (chars s).

(** [s.partition(c)] without the separator: the text before the first
    [c] and the text after it. *)
Fixpoint split_at (c : ascii) (s : list ascii)
  : option (list ascii * list ascii) :=
  match s with
  | [] => None
  | x :: s' =>
      if Ascii.eqb x c then Some ([], s')
      else match split_at c s' with
           | Some (l, r) => Some (x :: l, r)
           | None => None
           end
  end.

(** ** Integer literals *)

(** [\d+(_\d+)*]: groups of digits separated by single underscores.
    Returns the digits. *)
Fixpoint digit_groups (s : list ascii) : option (list ascii) :=
  match s with
  | [] => None
  | c :: s' =>
      if is_digit c then
        match s' with
        | [] => Some [c]
        | u :: s'' =>
            if Ascii.eqb u "_"
            then option_map (cons c) (digit_groups s'')
            else option_map (cons c) (digit_groups s')
        end
      else None
  end.

Definition digits_value (ds : list ascii) : Z :=
  fold_left (fun acc c => 10 * acc + digit_value c) ds 0.

(** [sys.get_int_max_str_digits()]: [int] refuses longer decimal
    strings. *)
Definition int_max_str_digits : nat := 4300.

(** [int(ds)] on a string of decimal digits. *)
Definition int_of_digits (ds : list ascii) : result Z :=
  if (int_max_str_digits <? List.length ds)%nat then Raise ValueError
  else Ret (digits_value ds).

(** [str(z)] *)
Definition str_of_int (z : Z) : string :=
  DecimalString.NilZero.string_of_int (Z.to_int z).

(** ** [fractions.Fraction] *)

Record Fraction : Type := { numerator : Z; denominator : Z }.

(** [Fraction(s)] for a string that contains ['/'].  With a slash in the
    text the rational pattern
    [\s*[-+]?(?=\d|\.\d)num(\s*/\s*denom)?\s*] can only match through
    its denominator part, with [num] and [denom] of the shape
    [\d+(_\d+)*]; the decimal alternative of the pattern is not
    modelled, [parse_cr] never reaches it.  After the match the
    constructor converts both groups with [int], applies the sign,
    rejects a zero denominator and reduces the fraction. *)
Definition Fraction_of_string (s : string) : result Fraction :=
  let body := strip re_space (chars s) in
  let '(neg, body) :=
    match body with
    | c :: rest =>
        if Ascii.eqb c "-" then (true, rest)
        else if Ascii.eqb c "+" then (false, rest)
        else (false, body)
    | [] => (false, body)
    end in
  match split_at "/" body with
  | None => Raise ValueError
  | Some (num, denom) =>
      match digit_groups (rstrip re_space num),
            digit_groups (lstrip re_space denom) with
      | Some nd, Some dd =>
          n <- int_of_digits nd ;;
          d <- int_of_digits dd ;;
          let n := if neg then - n else n in
          if d =? 0 then Raise ZeroDivisionError
          else
            let g := Z.gcd n d in
            Ret {| numerator := n / g; denominator := d / g |}
      | _, _ => Raise ValueError
      end
  end.

(** [a / b] on two [int]s: the correctly rounded quotient. *)
Definition int_truediv (a b : Z) : result float :=
  if b =? 0 then Raise ZeroDivisionError
  else
    let x := signed_nearest (xorb (a <? 0) (b <? 0))
                            (Z.abs a # Z.to_pos (Z.abs b)) in
    if is_inf x then Raise OverflowError else Ret x.

(** [Fraction.__float__]: [numerator / denominator]. *)
Definition float_of_Fraction (f : Fraction) : result float :=
  int_truediv (numerator f) (denominator f).

(** ** [float] *)

(** [float(z)] on an [int]. *)
Definition float_of_int (z : Z) : result float :=
  let x := signed_nearest (z <? 0) (Z.abs z # 1) in
  if is_inf x then Raise OverflowError else Ret x.

(** Underscores in a numeric string: each one must stand between two
    digits.  Returns the text without them. *)
Fixpoint drop_underscores (prev : option ascii) (s : list ascii)
  : option (list ascii) :=
  match s with
  | [] =>
      match prev with
      | Some p => if Ascii.eqb p "_" then None else Some []
      | None => Some []
      end
  | c :: s' =>
      if Ascii.eqb c "_" then
        match prev with
        | Some p => if is_digit p then drop_underscores (Some c) s' else None
        | None => None
        end
      else
        match prev with
        | Some p =>
            if Ascii.eqb p "_" && negb (is_digit c) then None
            else option_map (cons c) (drop_underscores (Some c) s')
        | None => option_map (cons c) (drop_underscores (Some c) s')
        end
  end.

(** The longest prefix of digits, and the rest. *)
Fixpoint span_digits (s : list ascii) : list ascii * list ascii :=
  match s with
  | c :: s' =>
      if is_digit c
      then let '(ds, r) := span_digits s' in (c :: ds, r)
      else ([], s)
  | [] => ([], [])
  end.

Definition take_sign (s : list ascii) : bool * list ascii :=
  match s with
  | c :: rest =>
      if Ascii.eqb c "-" then (true, rest)
      else if Ascii.eqb c "+" then (false, rest)
      else (false, s)
  | [] => (false, s)
  end.

(** The exponent part of a decimal literal: empty, or [e], an optional
    sign and at least one digit, up to the end of the text. *)
Definition exponent (s : list ascii) : option Z :=
  match s with
  | [] => Some 0
  | c :: rest =>
      if Ascii.eqb (lower c) "e" then
        let '(neg, rest) := take_sign rest in
        match span_digits rest with
        | ([], _) => None
        | (ds, []) =>
            Some (if neg then - digits_value ds else digits_value ds)
        | _ => None
        end
      else None
  end.

(** The magnitude of a decimal literal [digits[.digits][exponent]] with
    at least one digit in the mantissa. *)
Definition decimal_literal (s : list ascii) : option Q :=
  let '(ip, rest) := span_digits s in
  let '(fp, rest) :=
    match rest with
    | c :: rest' =>
        if Ascii.eqb c "." then span_digits rest' else ([], rest)
    | [] => ([], rest)
    end in
  match ip ++ fp with
  | [] => None
  | _ =>
      match exponent rest with
      | Some e =>
          let m := digits_value (ip ++ fp) in
          let e10 := e - Z.of_nat (List.length fp) in
          Some (if 0 <=? e10
                then (m * 10 ^ e10) # 1
                else m # Z.to_pos (10 ^ (- e10)))
      | None => None
      end
  end.

(** [float(s)] on a [str]: surrounding whitespace is stripped, then the
    text is [inf], [infinity] or [nan] in any case, or a decimal
    literal, after an optional sign.  A value too large rounds to an
    infinity; nothing else is accepted. *)
Definition float_of_string (s : string) : result float :=
  match drop_underscores None (strip is_space (chars s)) with
  | None => Raise ValueError
  | Some body =>
      let '(neg, body) := take_sign body in
      let word := string_of_list_ascii (map lower body) in
      if (String.eqb word "inf" || String.eqb word "infinity")%bool
      then Ret (S754_infinity neg)
      else if String.eqb word "nan" then Ret nan
      else match decimal_literal body with
           | Some q => Ret (signed_nearest neg q)
           | None => Raise ValueError
           end
  end.

(** [float(x)] *)
Definition py_float (x : object) : result float :=
  match x with
  | PyNone => Raise TypeError
  | PyBool b => float_of_int (if b then 1 else 0)
  | PyInt z => float_of_int z
  | PyFloat f => Ret f
  | PyStr s => float_of_string s
  | PyOther => Raise TypeError
  end.

(** [isinstance(x, str)] *)
Definition is_str (x : object) : bool :=
  match x with PyStr _ => true | _ => false end.

(** [c in x] once [x] is known to be a [str] *)
Definition str_contains (c : ascii) (x : object) : bool :=
  match x with PyStr s => contains c s | _ => false end.

End Py.

Import Py.

(* ================================================================== *)
(** * [parse_cr]

<<
def parse_cr(cr):
    if isinstance(cr, str) and '/' in cr:
        return float(Fraction(cr))
    try:
        return float(cr)
    except:
        return None
>>
    The first [return] stands outside the [try]: what [Fraction] or the
    conversion of its value raises leaves the function. *)

Definition parse_cr (cr : object) : result (option float) :=
  if is_str cr && str_contains "/" cr then
    match cr with
    | PyStr s =>
        f <- Fraction_of_string s ;;
        x <- float_of_Fraction f ;;
        Ret (Some x)
    | _ => Raise TypeError
    end
  else
    match py_float cr with
    | Ret x => Ret (Some x)
    | Raise _ => Ret None
    end.

(* ================================================================== *)
(** * The pandas operations the script uses *)

Module Pandas.

Section Series.
Context {A B C : Type}.

(** [Series.apply(f)]: [f] is called on the cells in order; the first
    exception ends the call. *)
Fixpoint apply (f : A -> result B) (col : list A) : result (list B) :=
  match col with
  | [] => Ret []
  | x :: col' =>
      y <- f x ;;
      ys <- apply f col' ;;
      Ret (y :: ys)
  end.

(** An elementwise binary operator on two columns of one frame. *)
Fixpoint zip_with (f : A -> B -> C) (xs : list A) (ys : list B)
  : list C :=
  match xs, ys with
  | x :: xs', y :: ys' => f x y :: zip_with f xs' ys'
  | _, _ => []
  end.

(** [df[mask]]: the rows whose mask cell is [True], in order. *)
Fixpoint select (rows : list A) (mask : list bool) : list A :=
  match rows, mask with
  | r :: rows', b :: mask' =>
      if b then r :: select rows' mask' else select rows' mask'
  | _, _ => []
  end.
End Series.

(** The float64 column that [apply] builds from floats and [None]s:
    [None] becomes NaN. *)
Definition to_float64 (x : option float) : float :=
  match x with Some v => v | None => nan end.

(** ** Cells of a column of integers; [None] is the missing value.

    A column of integers without a missing cell is held as [int64].
    One missing cell makes it a [float64] column: each cell is then a
    double, NaN where the value is missing. *)

Inductive dtype : Type := int64 | float64.

Definition has_value (x : option Z) : bool :=
  match x with Some _ => true | None => false end.

Definition dtype_of (col : list (option Z)) : dtype :=
  if forallb has_value col then int64 else float64.

(** The type of [a * b]: [int64] only when both columns are. *)
Definition result_type (a b : list (option Z)) : dtype :=
  match dtype_of a, dtype_of b with
  | int64, int64 => int64
  | _, _ => float64
  end.

(** [int64] arithmetic wraps around modulo [2^64]. *)
Definition wrap_int64 (z : Z) : Z := (z + 2 ^ 63) mod 2 ^ 64 - 2 ^ 63.

(** A cell as the double that a [float64] column holds for it. *)
Definition float_of_cell (x : option Z) : float :=
  match x with
  | Some a => nearest (inject_Z a)
  | None => nan
  end.

(** The cell that a double stands for.  A product of doubles that hold
    integers is NaN, a double that holds an integer, or an infinity;
    an infinity is written [2^1024] with its sign, which is beyond
    every finite double. *)
Definition cell_of_float (x : float) : option Z :=
  match x with
  | S754_nan => None
  | S754_zero _ => Some 0
  | S754_finite s m e => Some (cond_Zopp s (Z.shiftl (Zpos m) e))
  | S754_infinity s => Some (cond_Zopp s (2 ^ emax))
  end.

(** One cell of [a * b] in a result of type [t]: the wrapped product
    of two [int64] cells, or the rounded product of two doubles. *)
Definition mul_cell (t : dtype) (x y : option Z) : option Z :=
  match t with
  | int64 =>
      match x, y with
      | Some a, Some b => Some (wrap_int64 (a * b))
      | _, _ => None
      end
  | float64 =>
      cell_of_float (SFmul prec emax (float_of_cell x) (float_of_cell y))
  end.

Definition ge_cell (x : option Z) (v : Z) : bool :=
  match x with Some a => v <=? a | None => false end.

Definition le_cell (x : option Z) (v : Z) : bool :=
  match x with Some a => a <=? v | None => false end.

Definition eq_cell (x : option string) (v : string) : bool :=
  match x with Some s => String.eqb s v | None => false end.

(** [a * b], [col >= v], [col <= v], [col == v] and [m1 & m2]. *)
Definition mul (a b : list (option Z)) : list (option Z) :=
  zip_with (mul_cell (result_type a b)) a b.
Definition ge_int (col : list (option Z)) (v : Z) : list bool :=
  map (fun x => ge_cell x v) col.
Definition le_int (col : list (option Z)) (v : Z) : list bool :=
  map (fun x => le_cell x v) col.
Definition ge_float (col : list float) (v : float) : list bool :=
  map (fun x => fge x v) col.
Definition le_float (col : list float) (v : float) : list bool :=
  map (fun x => fle x v) col.
Definition eq_str (col : list (option string)) (v : string) : list bool :=
  map (fun x => eq_cell x v) col.
Definition and_ (m1 m2 : list bool) : list bool :=
  zip_with andb m1 m2.

(** ** Reductions; missing cells are skipped, and the result is missing
    when nothing is left. *)

Fixpoint present (col : list (option Z)) : list Z :=
  match col with
  | [] => []
  | Some v :: col' => v :: present col'
  | None :: col' => present col'
  end.

Definition reduce (f : Z -> Z -> Z) (col : list (option Z)) : option Z :=
  match present col with
  | [] => None
  | v :: vs => Some (fold_left f vs v)
  end.

Definition min (col : list (option Z)) : option Z := reduce Z.min col.
Definition max (col : list (option Z)) : option Z := reduce Z.max col.

(** [maximum(a, b)] of two floats that are not NaN. *)
Definition maximum (a b : float) : float := if fge a b then a else b.

(** [Series.max()] on a float64 column: NaN cells are replaced by
    [-inf], the maximum is taken, and the result is NaN when no cell
    was valid. *)
Definition fmax (col : list float) : float :=
  if forallb is_nan col then nan
  else
    match map (fun x => if is_nan x then neg_inf else x) col with
    | [] => nan
    | v :: vs => fold_left maximum vs v
    end.

(** ** [nlargest] and [nsmallest] on one integer column

    The rows whose key is present are ranked, rows with equal keys in
    their order of appearance ([keep='first']); the rows whose key is
    missing follow in their order, and the first [n] rows of the whole
    are the result.  So rows without a key fill the result up when fewer
    than [n] keys are present.  The order among equal keys plays no part
    in the theorems below. *)
Section SelectN.
Context {A : Type} (key : A -> option Z).

Definition notna (r : A) : bool :=
  match key r with Some _ => true | None => false end.

Definition dropna (rows : list A) : list A := filter notna rows.

Definition nan_rows (rows : list A) : list A :=
  filter (fun r => negb (notna r)) rows.

Definition value (r : A) : Z :=
  match key r with Some v => v | None => 0 end.

Definition ascending (x y : A) : bool := value x <=? value y.
Definition descending (x y : A) : bool := value y <=? value x.

Fixpoint insert (before : A -> A -> bool) (x : A) (l : list A)
  : list A :=
  match l with
  | [] => [x]
  | y :: l' => if before x y then x :: l else y :: insert before x l'
  end.

Fixpoint stable_sort (before : A -> A -> bool) (l : list A) : list A :=
  match l with
  | [] => []
  | x :: l' => insert before x (stable_sort before l')
  end.

Definition nsmallest (n : nat) (rows : list A) : list A :=
  firstn n (stable_sort ascending (dropna rows) ++ nan_rows rows).

Definition nlargest (n : nat) (rows : list A) : list A :=
  firstn n (stable_sort descending (dropna rows) ++ nan_rows rows).
End SelectN.

End Pandas.

(* ================================================================== *)
(** * The table *)

(** One row of the [monsters] data set. *)
Record MonsterRecord : Type := {
  name : option string;
  cr : object;
  type : option string;
  size : option string;
  ac : option Z;
  hp : option Z;
  speed : object;
  align : option string;
  legendary : option string;
  str : option Z;
  dex : option Z;
  con : option Z;
  int : option Z;
  wis : option Z;
  cha : option Z;
  source : option string
}.

(** A row once the two derived columns are assigned. *)
Record Row : Type := {
  base : MonsterRecord;
  cr_num : float;
  survivability : option Z
}.

Definition DataFrame : Type := list Row.

(** [df[c] = values]: the rows of [df] with the two new columns. *)
Fixpoint assign (df : list MonsterRecord) (cr_nums : list float)
         (survs : list (option Z)) : DataFrame :=
  match df, cr_nums, survs with
  | m :: df', c :: cr_nums', s :: survs' =>
      {| base := m; cr_num := c; survivability := s |}
        :: assign df' cr_nums' survs'
  | _, _, _ => []
  end.

(** <<
df['cr_num']        = df['cr'].apply(parse_cr)
df['survivability'] = df['ac'] * df['hp']
>> *)
Definition derive (df : list MonsterRecord) : result DataFrame :=
  cr_nums <- Pandas.apply parse_cr (map cr df) ;;
  let survs := Pandas.mul (map ac df) (map hp df) in
  Ret (assign df (map Pandas.to_float64 cr_nums) survs).

(** The columns of the derived frame that the script reads. *)
Definition col_ac (df : DataFrame) : list (option Z) :=
  map (fun r => ac (base r)) df.
Definition col_hp (df : DataFrame) : list (option Z) :=
  map (fun r => hp (base r)) df.
Definition col_cr_num (df : DataFrame) : list float :=
  map cr_num df.
Definition col_legendary (df : DataFrame) : list (option string) :=
  map (fun r => legendary (base r)) df.

(* ================================================================== *)
(** * The filter widgets *)

Record FilterCriteria : Type := {
  min_ac : Z;
  max_ac : Z;
  min_hp : Z;
  max_hp : Z;
  min_cr : float;
  max_cr : float;
  legendary_only : bool
}.

(** [int(x)] on the result of a reduction: a missing value cannot be
    converted. *)
Definition py_int (x : option Z) : result Z :=
  match x with
  | Some v => Ret v
  | None => Raise ValueError
  end.

(** A widget that has not been touched holds its default. *)
Definition slider {A : Type} (min_val max_val default : A) : A := default.
Definition checkbox (default : bool) : bool := default.

(** The seven widgets of the script, evaluated in its order; each
    argument of an integer slider is an [int(...)] of a column bound. *)
Definition default_criteria (df : DataFrame) : result FilterCriteria :=
  let ac_lo := py_int (Pandas.min (col_ac df)) in
  let ac_hi := py_int (Pandas.max (col_ac df)) in
  let hp_lo := py_int (Pandas.min (col_hp df)) in
  let hp_hi := py_int (Pandas.max (col_hp df)) in
  let cr_hi := Pandas.fmax (col_cr_num df) in
  min_ac <- (a <- ac_lo ;; b <- ac_hi ;; d <- ac_lo ;; Ret (slider a b d)) ;;
  max_ac <- (a <- ac_lo ;; b <- ac_hi ;; d <- ac_hi ;; Ret (slider a b d)) ;;
  min_hp <- (a <- hp_lo ;; b <- hp_hi ;; d <- hp_lo ;; Ret (slider a b d)) ;;
  max_hp <- (a <- hp_lo ;; b <- hp_hi ;; d <- hp_hi ;; Ret (slider a b d)) ;;
  let min_cr := slider zero cr_hi zero in
  let max_cr := slider zero cr_hi cr_hi in
  let legendary_only := checkbox false in
  Ret {| min_ac := min_ac; max_ac := max_ac;
         min_hp := min_hp; max_hp := max_hp;
         min_cr := min_cr; max_cr := max_cr;
         legendary_only := legendary_only |}.

(* ================================================================== *)
(** * The filter stage

<<
df_filt = df.copy()
df_filt = df_filt[
    (df_filt["ac"]    >= min_ac) &
    (df_filt["ac"]    <= max_ac) &
    (df_filt["hp"]    >= min_hp) &
    (df_filt["hp"]    <= max_hp) &
    (df_filt["cr_num"]>= min_cr) &
    (df_filt["cr_num"]<= max_cr)
]
if legendary_only:
    df_filt = df_filt[df_filt["legendary"] == "Legendary"]
>> *)

Definition range_mask (c : FilterCriteria) (df : DataFrame) : list bool :=
  Pandas.and_ (Pandas.and_ (Pandas.and_ (Pandas.and_ (Pandas.and_
    (Pandas.ge_int (col_ac df) (min_ac c))
    (Pandas.le_int (col_ac df) (max_ac c)))
    (Pandas.ge_int (col_hp df) (min_hp c)))
    (Pandas.le_int (col_hp df) (max_hp c)))
    (Pandas.ge_float (col_cr_num df) (min_cr c)))
    (Pandas.le_float (col_cr_num df) (max_cr c)).

Definition df_filt (c : FilterCriteria) (df : DataFrame) : DataFrame :=
  let df_filt := df in
  let df_filt := Pandas.select df_filt (range_mask c df_filt) in
  if legendary_only c
  then Pandas.select df_filt
         (Pandas.eq_str (col_legendary df_filt) "Legendary")
  else df_filt.

(* ================================================================== *)
(** * The survivability rankings

<<
top10 = df.nlargest(10, 'survivability')[SHOW_COLS + ['survivability']]
bot10 = df.nsmallest(10, 'survivability')[SHOW_COLS + ['survivability']]
>> *)

(** A row restricted to [SHOW_COLS + ['survivability']]. *)
Record Listing : Type := {
  l_name : option string;
  l_cr : object;
  l_type : option string;
  l_size : option string;
  l_ac : option Z;
  l_hp : option Z;
  l_speed : object;
  l_align : option string;
  l_legendary : option string;
  l_survivability : option Z
}.

Definition show_cols (r : Row) : Listing :=
  {| l_name := name (base r);
     l_cr := cr (base r);
     l_type := type (base r);
     l_size := size (base r);
     l_ac := ac (base r);
     l_hp := hp (base r);
     l_speed := speed (base r);
     l_align := align (base r);
     l_legendary := legendary (base r);
     l_survivability := survivability r |}.

Definition top10 (df : DataFrame) : list Listing :=
  map show_cols (Pandas.nlargest survivability 10 df).

Definition bot10 (df : DataFrame) : list Listing :=
  map show_cols (Pandas.nsmallest survivability 10 df).

(* ================================================================== *)
(** * The vocabulary of the specification *)

(** A present cell inside the closed interval [[lo, hi]]. *)
Definition within (x : option Z) (lo hi : Z) : Prop :=
  exists v, x = Some v /\ lo <= v <= hi.

(** A float cell inside the closed interval [[lo, hi]]. *)
Definition fwithin (x lo hi : float) : Prop :=
  fle lo x = true /\ fle x hi = true.

(** The filter contract: every range holds and, when the flag is set,
    the legendary field is exactly ["Legendary"]. *)
Definition Satisfies (c : FilterCriteria) (r : Row) : Prop :=
  within (ac (base r)) (min_ac c) (max_ac c) /\
  within (hp (base r)) (min_hp c) (max_hp c) /\
  fwithin (cr_num r) (min_cr c) (max_cr c) /\
  (legendary_only c = true -> legendary (base r) = Some "Legendary"%string).

(** [l] is [l'] with some elements removed: order and multiplicity are
    those of [l']. *)
Inductive Subseq {A : Type} : list A -> list A -> Prop :=
| Subseq_nil : Subseq [] []
| Subseq_skip : forall x l l', Subseq l l' -> Subseq l (x :: l')
| Subseq_keep : forall x l l', Subseq l l' -> Subseq (x :: l) (x :: l').

(** The row-wise reading of the two masks of [df_filt]. *)
Definition in_ranges (c : FilterCriteria) (r : Row) : bool :=
  Pandas.ge_cell (ac (base r)) (min_ac c) &&
  Pandas.le_cell (ac (base r)) (max_ac c) &&
  Pandas.ge_cell (hp (base r)) (min_hp c) &&
  Pandas.le_cell (hp (base r)) (max_hp c) &&
  fge (cr_num r) (min_cr c) &&
  fle (cr_num r) (max_cr c).

Definition is_legendary (r : Row) : bool :=
  Pandas.eq_cell (legendary (base r)) "Legendary".

Definition keeps (c : FilterCriteria) (r : Row) : bool :=
  in_ranges c r && (if legendary_only c then is_legendary r else true).

(** The text ["a/b"] of two integers, and the exact quotient. *)
Definition fraction_text (a b : Z) : string :=
  (str_of_int a ++ "/" ++ str_of_int b)%string.

Definition quotient (a b : Z) : Q :=
  (a * Z.sgn b) # Z.to_pos (Z.abs b).

(** The number of decimal digits in [str(z)]. *)
Definition decimal_digits (z : Z) : nat :=
  String.length (str_of_int (Z.abs z)).

(** Some constants. *)
Definition f_0_25 : float := S754_finite false 4503599627370496 (-54).
Definition f_5_0 : float := S754_finite false 5629499534213120 (-50).

(** A record with the given challenge rating, armor class and hit
    points, and nothing else filled in. *)
Definition monster (c : object) (a h : option Z) (leg : option string)
  : MonsterRecord :=
  {| name := None; cr := c; type := None; size := None;
     ac := a; hp := h; speed := PyNone; align := None; legendary := leg;
     str := None; dex := None; con := None; int := None; wis := None;
     cha := None; source := None |}.

(** The characters of an unsigned decimal numeral, and the digits of
    [str(n)] for a natural number. *)
Definition uchars (d : Decimal.uint) : list ascii :=
  chars (DecimalString.NilEmpty.string_of_uint d).

Definition digits_of (n : N) : list ascii :=
  chars (DecimalString.NilZero.string_of_uint (N.to_uint n)).

Definition all_digits (ds : list ascii) : Prop :=
  Forall (fun c => is_digit c = true) ds.


(** The filter stage at the defaults of the widgets. *)
Definition default_filter (df : DataFrame) : result DataFrame :=
  c <- default_criteria df ;;
  Ret (df_filt c df).




(* ================================================================== *)
(** * Sample tables *)

(** The derived table of a data set, empty when [derive] raises. *)
Definition table_of (ms : list MonsterRecord) : DataFrame :=
  match derive ms with
  | Ret df => df
  | Raise _ => []
  end.

(** [n] monsters with armor class [1 .. n], one hit point each and the
    challenge rating equal to the armor class. *)
Definition herd (n : nat) : list MonsterRecord :=
  map (fun i => monster (PyInt (Z.of_nat i)) (Some (Z.of_nat i)) (Some 1) None)
      (seq 1 n).

(** A monster whose armor class and challenge rating are missing. *)
Definition stray : MonsterRecord := monster PyNone None (Some 7) None.

(** Two monsters; the second has no challenge rating. *)
Definition two_monsters : list MonsterRecord :=
  [ monster (PyStr "5") (Some 10) (Some 20) None;
    monster PyNone (Some 12) (Some 30) None ].

Definition two_monsters_defaults : FilterCriteria :=
  {| min_ac := 10; max_ac := 12; min_hp := 20; max_hp := 30;
     min_cr := zero; max_cr := f_5_0; legendary_only := false |}.

(** Criteria that no bound can make wider in this table. *)
Definition wide_open : FilterCriteria :=
  {| min_ac := -1000; max_ac := 1000; min_hp := -1000; max_hp := 1000;
     min_cr := S754_infinity true; max_cr := S754_infinity false;
     legendary_only := false |}.






Definition pair_defaults : FilterCriteria :=
  {| min_ac := 1; max_ac := 2; min_hp := 1; max_hp := 7;
     min_cr := zero; max_cr := nearest (2 # 1); legendary_only := false |}.

(* ================================================================== *)
(** * The rest of the script: what it shows

    The grouping steps below list the groups in the order of their keys
    and then sort by the aggregate; the order among equal aggregates
    plays no part in the theorems. *)

Module Frame.

(** [Series.fillna(v)] on a column of strings. *)
Definition fillna (v : string) (x : option string) : option string :=
match x with
| Some s => Some s
| None => Some v
end.

(** [Series.notna()] *)
Definition notna_str (x : option string) : bool :=
match x with Some _ => true | None => false end.

(** [df.dropna(subset=cols)]: the rows in which every listed column is
  present. *)
Definition dropna_subset {A : Type} (cols : list (A -> bool))
         (rows : list A) : list A :=
filter (fun r => forallb (fun present => present r) cols) rows.

(** [df.empty] *)
Definition empty {A : Type} (rows : list A) : bool :=
match rows with
| [] => true
| _ :: _ => false
end.

(** [Series.unique()]: the distinct values in the order of their first
  appearance. *)
Definition unique (l : list string) : list string :=
rev (nodup string_dec (rev l)).

Section GroupBy.
Context {A : Type} (key : A -> option string) (counted : A -> bool).

Definition has_key (k : string) (r : A) : bool :=
match key r with
| Some s => String.eqb s k
| None => false
end.

Fixpoint present_keys (rows : list A) : list string :=
match rows with
| [] => []
| r :: rows' =>
  match key r with
  | Some s => s :: present_keys rows'
  | None => present_keys rows'
  end
end.

(** The group keys: the distinct present values, in sorted order. *)
Definition group_keys (rows : list A) : list string :=
Pandas.stable_sort String.leb (unique (present_keys rows)).

(** [('col', 'count')]: the cells of the group that are present. *)
Definition group_count (rows : list A) (k : string) : nat :=
List.length (filter (fun r => has_key k r && counted r) rows).

(** [df.groupby(key, as_index=False).agg(count=(col, 'count'))]: one row
per group; rows without a key belong to no group. *)
Definition groupby_count (rows : list A) : list (string * nat) :=
map (fun k => (k, group_count rows k)) (group_keys rows).

(** [Series.value_counts()]: the number of rows per present value, the
most frequent first. *)
Definition value_counts (rows : list A) : list (string * nat) :=
Pandas.stable_sort (fun x y => (snd y <=? snd x)%nat)
(map (fun k => (k, List.length (filter (has_key k) rows)))
     (unique (present_keys rows))).

(** [col.isin(values)] *)
Definition isin (values : list string) (r : A) : bool :=
match key r with
| Some s => existsb (String.eqb s) values
| None => false
end.
End GroupBy.

(** [sort_values('count', ascending=False)] *)
Definition sort_by_count (t : list (string * nat)) : list (string * nat) :=
Pandas.stable_sort (fun x y => (snd y <=? snd x)%nat) t.

End Frame.

(** ** The filtered table (lines 100-104) *)

(** A row restricted to [SHOW_COLS]. *)
Record Shown : Type := {
  s_name : option string;
  s_cr : object;
  s_type : option string;
  s_size : option string;
  s_ac : option Z;
  s_hp : option Z;
  s_speed : object;
  s_align : option string;
  s_legendary : option string
}.

Definition SHOW_COLS (r : Row) : Shown :=
  {| s_name := name (base r);
     s_cr := cr (base r);
     s_type := type (base r);
     s_size := size (base r);
     s_ac := ac (base r);
     s_hp := hp (base r);
     s_speed := speed (base r);
     s_align := align (base r);
     s_legendary := legendary (base r) |}.

(** What the script hands to the page: a line of text or a table. *)
Inductive Output : Type :=
| text (s : string)
| table (rows : list Shown) (title : string).

Definition no_match : string :=
  "*No creatures match these arcane parameters…*".

(** <<
if df_filt.empty:
    text("*No creatures match these arcane parameters…*")
else:
    table(df_filt[SHOW_COLS], title="Filtered Bestiary")
>> *)
Definition show_filtered (df_filt : DataFrame) : Output :=
  if Frame.empty df_filt then text no_match
  else table (map SHOW_COLS df_filt) "Filtered Bestiary".

(** The page for given criteria. *)
Definition filtered_bestiary (c : FilterCriteria) (df : DataFrame) : Output :=
  show_filtered (df_filt c df).

(** ** Chapter III (line 147)

<<
alig_df = df.dropna(subset=['align','cr_num'])
>> *)
Definition alig_df (df : DataFrame) : DataFrame :=
  Frame.dropna_subset
    [ (fun r => Frame.notna_str (align (base r)));
      (fun r => negb (is_nan (cr_num r))) ] df.

(** ** Chapter IV (lines 159-165)

<<
src = (
    df
    .fillna({'source':'Unknown'})
    .groupby('source', as_index=False)
    .agg(count=('name','count'))
    .sort_values('count', ascending=False)
)
>> *)
Definition filled_source (r : Row) : option string :=
  Frame.fillna "Unknown" (source (base r)).

Definition has_name (r : Row) : bool := Frame.notna_str (name (base r)).

Definition src (df : DataFrame) : list (string * nat) :=
  Frame.sort_by_count (Frame.groupby_count filled_source has_name df).

(** ** Chapter V (line 177)

<<
leg_df = df.assign(category=df['legendary'].fillna('Common'))
>> *)
Definition leg_df (df : DataFrame) : list (Row * option string) :=
  combine df (map (Frame.fillna "Common") (col_legendary df)).

(** ** Chapter VI (lines 189-196)

<<
top10 = df['type'].value_counts().nlargest(10).index
freq = (
    df[df['type'].isin(top10)]
    .groupby(['size','type'], as_index=False)
    .agg(count=('name','count'))
    .pivot(index='size', columns='type', values='count')
    .fillna(0)
)
>> *)
Definition row_type (r : Row) : option string := type (base r).
Definition row_size (r : Row) : option string := size (base r).

(** The number of rows of a type. *)
Definition type_count (df : DataFrame) (t : string) : nat :=
  List.length (filter (Frame.has_key row_type t) df).

(** The key of [nlargest] on a series of counts: always present. *)
Definition by_count (p : string * nat) : option Z := Some (Z.of_nat (snd p)).

(** The index of [value_counts().nlargest(10)]. *)
Definition top10_types (df : DataFrame) : list string :=
  map fst (Pandas.nlargest by_count 10 (Frame.value_counts row_type df)).

(** [df[df['type'].isin(top10)]] *)
Definition of_top_types (df : DataFrame) : DataFrame :=
  Pandas.select df (map (Frame.isin row_type (top10_types df)) df).

(** The pivoted counts: one line per size and one column per type, both
    in sorted order; a pair of size and type with no group holds 0. *)
Record Pivot : Type := {
  index : list string;
  columns : list string;
  cells : list (list nat)
}.

(** The cell of a size and a type: the names present in their group. *)
Definition pair_count (rows : DataFrame) (s t : string) : nat :=
  List.length
    (filter (fun r => Frame.has_key row_size s r
                      && Frame.has_key row_type t r && has_name r) rows).

(** The number of rows shown: the sum of all cells. *)
Definition total (p : Pivot) : nat := list_sum (map (@list_sum) (cells p)).

Definition freq (df : DataFrame) : Pivot :=
  let rows := of_top_types df in
  let grouped := filter (fun r => Frame.notna_str (row_size r)
                                  && Frame.notna_str (row_type r)) rows in
  let sizes := Frame.group_keys row_size grouped in
  let types := Frame.group_keys row_type grouped in
  {| index := sizes;
     columns := types;
     cells := map (fun s => map (fun t => pair_count rows s t) types)
                  sizes |}.

(** ** Comparing criteria *)

(** Every range of [c] lies inside the range of [c'], and [c'] asks for
    legendary creatures only if [c] does. *)
Definition Wider (c c' : FilterCriteria) : Prop :=
  min_ac c' <= min_ac c /\ max_ac c <= max_ac c' /\
  min_hp c' <= min_hp c /\ max_hp c <= max_hp c' /\
  fle (min_cr c') (min_cr c) = true /\ fle (max_cr c) (max_cr c') = true /\
  (legendary_only c' = true -> legendary_only c = true).

(** A minimum above its maximum. *)
Definition Inverted (c : FilterCriteria) : Prop :=
  max_ac c < min_ac c \/ max_hp c < min_hp c \/
  fle (min_cr c) (max_cr c) = false.

(** ** A sample data set with names, types, sizes and sources *)

Definition creature (n t s so : option string) : MonsterRecord :=
  {| name := n; cr := PyInt 1; type := t; size := s;
     ac := Some 10; hp := Some 10; speed := PyNone; align := None;
     legendary := None;
     str := None; dex := None; con := None; int := None; wis := None;
     cha := None; source := so |}.

Definition menagerie : list MonsterRecord :=
  [ creature (Some "Aboleth"%string) (Some "aberration"%string) (Some "Large"%string) (Some "MM"%string);
    creature (Some "Wolf"%string) (Some "beast"%string) (Some "Medium"%string) (Some "MM"%string);
    creature None (Some "beast"%string) (Some "Large"%string) (Some "MM"%string);
    creature (Some "Bat"%string) (Some "beast"%string) (Some "Tiny"%string) None;
    creature (Some "Ghost"%string) None (Some "Medium"%string) (Some "Unknown"%string);
    creature (Some "Ooze"%string) (Some "ooze"%string) None (Some "VGM"%string) ].

(** ** A sample data set with alignments *)

Definition aligned (c : object) (al : option string) : MonsterRecord :=
  {| name := None; cr := c; type := None; size := None;
     ac := Some 10; hp := Some 10; speed := PyNone; align := al;
     legendary := None;
     str := None; dex := None; con := None; int := None; wis := None;
     cha := None; source := None |}.

(** Only the first of the four is charted: the second has no challenge
    rating, the third no alignment, and the rating of the fourth is not a
    number. *)
Definition alignments : list MonsterRecord :=
  [ aligned (PyStr "1/4") (Some "lawful evil"%string);
    aligned PyNone (Some "neutral"%string);
    aligned (PyInt 5) None;
    aligned (PyStr "unknown") (Some "chaotic good"%string) ].

(* ================================================================== *)
(** * Facts about masks and boolean indexing *)

Section MaskFacts.
Context {A : Type}.

Lemma select_map (p : A -> bool) (l : list A) :
  Pandas.select l (map p l) = filter p l.
Proof.
  induction l as [|x l IH]; simpl; [reflexivity|].
  rewrite IH. reflexivity.
Qed.

Lemma zip_with_map {B C D : Type} (f : B -> C -> D)
      (p : A -> B) (q : A -> C) (l : list A) :
  Pandas.zip_with f (map p l) (map q l) = map (fun x => f (p x) (q x)) l.
Proof.
  induction l as [|x l IH]; simpl; [reflexivity|].
  now rewrite IH.
Qed.

Lemma filter_and (p q : A -> bool) (l : list A) :
  filter q (filter p l) = filter (fun x => p x && q x) l.
Proof.
  induction l as [|x l IH]; simpl; [reflexivity|].
  destruct (p x); simpl; rewrite IH; reflexivity.
Qed.

Lemma filter_all (p : A -> bool) (l : list A) :
  (forall x, In x l -> p x = true) -> filter p l = l.
Proof.
  induction l as [|x l IH]; simpl; intros H; [reflexivity|].
  rewrite (H x (or_introl eq_refl)), IH; auto.
Qed.

Lemma filter_none (p : A -> bool) (l : list A) :
  (forall x, In x l -> p x = false) -> filter p l = [].
Proof.
  induction l as [|x l IH]; simpl; intros H; [reflexivity|].
  rewrite (H x (or_introl eq_refl)), IH; auto.
Qed.

Lemma filter_idem (p : A -> bool) (l : list A) :
  filter p (filter p l) = filter p l.
Proof.
  apply filter_all. intros x Hx. apply filter_In in Hx. tauto.
Qed.

Lemma Subseq_refl (l : list A) : Subseq l l.
Proof. induction l; constructor; assumption. Qed.

Lemma Subseq_filter (p : A -> bool) (l : list A) : Subseq (filter p l) l.
Proof.
  induction l as [|x l IH]; simpl; [constructor|].
  destruct (p x); constructor; assumption.
Qed.

Lemma Subseq_In (l l' : list A) :
  Subseq l l' -> forall x, In x l -> In x l'.
Proof.
  induction 1; simpl; intros y Hy; auto.
  destruct Hy; auto.
Qed.

Lemma Subseq_length (l l' : list A) :
  Subseq l l' -> (List.length l <= List.length l')%nat.
Proof. induction 1; simpl; lia. Qed.

Lemma Subseq_NoDup (l l' : list A) :
  Subseq l l' -> NoDup l' -> NoDup l.
Proof.
  induction 1; intros Hnd; auto.
  - inversion Hnd; auto.
  - inversion Hnd; subst. constructor; auto.
    intros Hx. eapply Subseq_In in Hx; eauto.
Qed.
End MaskFacts.

Lemma range_mask_rows (c : FilterCriteria) (df : DataFrame) :
  range_mask c df = map (in_ranges c) df.
Proof.
  unfold range_mask, Pandas.and_, Pandas.ge_int, Pandas.le_int,
    Pandas.ge_float, Pandas.le_float, col_ac, col_hp, col_cr_num.
  rewrite !map_map.
  repeat rewrite (zip_with_map andb).
  reflexivity.
Qed.

Lemma df_filt_filter (c : FilterCriteria) (df : DataFrame) :
  df_filt c df = filter (keeps c) df.
Proof.
  unfold df_filt, keeps.
  rewrite range_mask_rows, select_map.
  destruct (legendary_only c).
  - unfold Pandas.eq_str, col_legendary. rewrite map_map.
    rewrite (select_map is_legendary), filter_and. reflexivity.
  - apply filter_ext. intros r. now rewrite andb_true_r.
Qed.

Lemma ge_cell_spec (x : option Z) (v : Z) :
  Pandas.ge_cell x v = true <-> exists a, x = Some a /\ v <= a.
Proof.
  destruct x as [a|]; simpl.
  - rewrite Z.leb_le. split; [intros H; exists a; auto|].
    intros (a' & [= <-] & H); exact H.
  - split; [discriminate|]. intros (a & [=] & _).
Qed.

Lemma le_cell_spec (x : option Z) (v : Z) :
  Pandas.le_cell x v = true <-> exists a, x = Some a /\ a <= v.
Proof.
  destruct x as [a|]; simpl.
  - rewrite Z.leb_le. split; [intros H; exists a; auto|].
    intros (a' & [= <-] & H); exact H.
  - split; [discriminate|]. intros (a & [=] & _).
Qed.

Lemma eq_cell_spec (x : option string) (v : string) :
  Pandas.eq_cell x v = true <-> x = Some v.
Proof.
  destruct x as [s|]; simpl.
  - rewrite String.eqb_eq. split; [now intros ->|now intros [= ->]].
  - split; discriminate.
Qed.

Lemma in_ranges_spec (c : FilterCriteria) (r : Row) :
  in_ranges c r = true <->
  within (ac (base r)) (min_ac c) (max_ac c) /\
  within (hp (base r)) (min_hp c) (max_hp c) /\
  fwithin (cr_num r) (min_cr c) (max_cr c).
Proof.
  unfold in_ranges, within, fwithin, fge, fle.
  rewrite !andb_true_iff, !ge_cell_spec, !le_cell_spec.
  split.
  - intros [[[[[(a & Ha & H1) (a' & Ha' & H2)] (h & Hh & H3)]
             (h' & Hh' & H4)] H5] H6].
    rewrite Ha in Ha'. injection Ha' as <-.
    rewrite Hh in Hh'. injection Hh' as <-.
    repeat split; eauto.
  - intros ((a & Ha & H1 & H2) & (h & Hh & H3 & H4) & H5 & H6).
    repeat split; eauto.
Qed.

Lemma keeps_spec (c : FilterCriteria) (r : Row) :
  keeps c r = true <-> Satisfies c r.
Proof.
  unfold keeps, Satisfies.
  rewrite andb_true_iff, in_ranges_spec.
  destruct (legendary_only c).
  - unfold is_legendary. rewrite eq_cell_spec. tauto.
  - intuition discriminate.
Qed.

Lemma df_filt_In (c : FilterCriteria) (df : DataFrame) (r : Row) :
  In r (df_filt c df) <-> In r df /\ Satisfies c r.
Proof. rewrite df_filt_filter, filter_In, keeps_spec. tauto. Qed.

(* ================================================================== *)
(** * The order of the floats that are not NaN *)

Lemma fle_not_nan (x y : float) :
  fle x y = true -> is_nan x = false /\ is_nan y = false.
Proof.
  unfold fle, SFleb, SFcompare.
  destruct x, y; simpl; try discriminate; auto.
Qed.

Lemma fle_refl (x : float) : is_nan x = false -> fle x x = true.
Proof.
  unfold fle, SFleb, SFcompare.
  destruct x as [s|s| |s m e]; simpl; try discriminate; intros _;
    try (destruct s; reflexivity).
  destruct s; rewrite Z.compare_refl;
    change (Pos.compare_cont Eq m m) with (Pos.compare m m);
    rewrite Pos.compare_refl; reflexivity.
Qed.

Lemma fle_total (x y : float) :
  is_nan x = false -> is_nan y = false ->
  fle x y = true \/ fle y x = true.
Proof.
  unfold fle, SFleb, SFcompare.
  destruct x as [s|s| |s m e], y as [s'|s'| |s' m' e']; simpl;
    try discriminate; intros _ _;
    try (destruct s; auto; fail); try (destruct s'; auto; fail);
    try (destruct s, s'; auto; fail).
  change (Pos.compare_cont Eq m m') with (Pos.compare m m').
  change (Pos.compare_cont Eq m' m) with (Pos.compare m' m).
  rewrite (Z.compare_antisym e e'), (Pos.compare_antisym m m').
  destruct s, s'; auto;
    destruct (e ?= e'); simpl; auto; destruct (m ?= m')%positive; simpl; auto.
Qed.

Lemma fle_trans (x y z : float) :
  fle x y = true -> fle y z = true -> fle x z = true.
Proof.
  unfold fle, SFleb, SFcompare.
  destruct x as [s|s| |s m e], y as [s'|s'| |s' m' e'],
           z as [s''|s''| |s'' m'' e'']; simpl;
    try discriminate; try reflexivity;
    try (destruct s; try discriminate; try reflexivity;
         destruct s'; try discriminate; try reflexivity;
         destruct s''; try discriminate; reflexivity);
    try (destruct s; try discriminate; try reflexivity;
         destruct s''; try discriminate; try reflexivity;
         destruct s'; try discriminate; reflexivity).
  change (Pos.compare_cont Eq m m') with (Pos.compare m m').
  change (Pos.compare_cont Eq m' m'') with (Pos.compare m' m'').
  change (Pos.compare_cont Eq m m'') with (Pos.compare m m'').
  destruct s, s', s''; try discriminate; try reflexivity;
    destruct (Z.compare_spec e e'), (Z.compare_spec e' e''),
             (Z.compare_spec e e''); subst; simpl;
    try discriminate; try reflexivity; try lia;
    destruct (Pos.compare_spec m m'), (Pos.compare_spec m' m''),
             (Pos.compare_spec m m''); subst; simpl;
    try discriminate; try reflexivity; try lia.
Qed.

(* ================================================================== *)
(** * Column reductions *)

Lemma present_In (col : list (option Z)) (v : Z) :
  In v (Pandas.present col) <-> In (Some v) col.
Proof.
  induction col as [|[a|] col IH]; simpl.
  - tauto.
  - rewrite IH. split; intros [H|H]; auto.
    + left; now f_equal.
    + left; now injection H.
  - rewrite IH. split; [auto|]. intros [H|H]; [discriminate|auto].
Qed.

Lemma fold_min_le (vs : list Z) (v x : Z) :
  In x (v :: vs) -> fold_left Z.min vs v <= x.
Proof.
  revert v x. induction vs as [|w vs IH]; simpl; intros v x H.
  - destruct H as [->|[]]. lia.
  - destruct H as [->|[->|H]].
    + transitivity (Z.min x w); [apply IH; now left | lia].
    + transitivity (Z.min v x); [apply IH; now left | lia].
    + apply IH. now right.
Qed.

Lemma fold_max_ge (vs : list Z) (v x : Z) :
  In x (v :: vs) -> x <= fold_left Z.max vs v.
Proof.
  revert v x. induction vs as [|w vs IH]; simpl; intros v x H.
  - destruct H as [->|[]]. lia.
  - destruct H as [->|[->|H]].
    + transitivity (Z.max x w); [lia | apply IH; now left].
    + transitivity (Z.max v x); [lia | apply IH; now left].
    + apply IH. now right.
Qed.

Lemma min_lower_bound (col : list (option Z)) (a : Z) :
  In (Some a) col ->
  exists m, Pandas.min col = Some m /\
            forall b, In (Some b) col -> m <= b.
Proof.
  intros Ha. unfold Pandas.min, Pandas.reduce.
  destruct (Pandas.present col) as [|v vs] eqn:E.
  - apply present_In in Ha. rewrite E in Ha. destruct Ha.
  - eexists; split; [reflexivity|].
    intros b Hb. apply fold_min_le. rewrite <- E. now apply present_In.
Qed.

Lemma max_upper_bound (col : list (option Z)) (a : Z) :
  In (Some a) col ->
  exists m, Pandas.max col = Some m /\
            forall b, In (Some b) col -> b <= m.
Proof.
  intros Ha. unfold Pandas.max, Pandas.reduce.
  destruct (Pandas.present col) as [|v vs] eqn:E.
  - apply present_In in Ha. rewrite E in Ha. destruct Ha.
  - eexists; split; [reflexivity|].
    intros b Hb. apply fold_max_ge. rewrite <- E. now apply present_In.
Qed.

Lemma maximum_not_nan (a b : float) :
  is_nan a = false -> is_nan b = false ->
  is_nan (Pandas.maximum a b) = false.
Proof. unfold Pandas.maximum. now destruct (fge a b). Qed.

Lemma maximum_upper (a b : float) :
  is_nan a = false -> is_nan b = false ->
  fle a (Pandas.maximum a b) = true /\ fle b (Pandas.maximum a b) = true.
Proof.
  intros Ha Hb. unfold Pandas.maximum, fge.
  change (SFleb b a) with (fle b a).
  destruct (fle b a) eqn:E.
  - split; [now apply fle_refl | exact E].
  - split; [|now apply fle_refl].
    destruct (fle_total a b Ha Hb) as [H|H]; [exact H | congruence].
Qed.

Lemma fold_maximum_upper (vs : list float) (v x : float) :
  is_nan v = false -> Forall (fun y => is_nan y = false) vs ->
  In x (v :: vs) -> fle x (fold_left Pandas.maximum vs v) = true.
Proof.
  revert v x. induction vs as [|w vs IH]; simpl; intros v x Hv Hvs Hx.
  - destruct Hx as [->|[]]. now apply fle_refl.
  - inversion Hvs as [|? ? Hw Hvs']; subst.
    destruct (maximum_upper v w Hv Hw) as [H1 H2].
    pose proof (maximum_not_nan v w Hv Hw) as Hm.
    destruct Hx as [->|[->|Hx]].
    + eapply fle_trans; [exact H1 | apply IH; auto; now left].
    + eapply fle_trans; [exact H2 | apply IH; auto; now left].
    + apply IH; auto. now right.
Qed.

(** Every valid cell is below the maximum of its column. *)
Lemma fmax_upper_bound (col : list float) (x : float) :
  In x col -> is_nan x = false -> fle x (Pandas.fmax col) = true.
Proof.
  intros Hx Hn. unfold Pandas.fmax.
  destruct (forallb is_nan col) eqn:E.
  - rewrite forallb_forall in E. rewrite (E x Hx) in Hn. discriminate.
  - set (fill := fun y : float => if is_nan y then neg_inf else y).
    assert (Hin : In x (map fill col)).
    { apply in_map_iff. exists x. split; [|exact Hx].
      unfold fill. now rewrite Hn. }
    assert (Hall : Forall (fun y => is_nan y = false) (map fill col)).
    { apply Forall_forall. intros y Hy. apply in_map_iff in Hy.
      destruct Hy as (z & <- & _). unfold fill.
      destruct (is_nan z) eqn:Ez; [reflexivity | exact Ez]. }
    destruct (map fill col) as [|v vs]; [destruct Hin|].
    inversion Hall; subst. now apply fold_maximum_upper.
Qed.

(* ================================================================== *)
(** * Decimal texts *)

(** What a digit is not. *)
Lemma digit_facts (c : ascii) :
  is_digit c = true ->
  is_space c = false /\ re_space c = false /\
  Ascii.eqb c "_" = false /\ Ascii.eqb c "/" = false /\
  Ascii.eqb c "-" = false /\ Ascii.eqb c "+" = false /\
  Ascii.eqb c "." = false /\ lower c = c /\
  Ascii.eqb c "i" = false /\ Ascii.eqb c "n" = false.
Proof.
  destruct c as [[] [] [] [] [] [] [] []];
    try discriminate; intros _; repeat split; reflexivity.
Qed.

Lemma chars_app (s t : string) : chars (s ++ t) = chars s ++ chars t.
Proof.
  unfold chars. induction s as [|c s IH]; simpl; [reflexivity|].
  now rewrite IH.
Qed.

Lemma length_chars (s : string) : List.length (chars s) = String.length s.
Proof.
  unfold chars. induction s as [|c s IH]; simpl; [reflexivity|].
  now rewrite IH.
Qed.

Lemma uchars_digits (d : Decimal.uint) : all_digits (uchars d).
Proof.
  unfold all_digits, uchars, chars.
  induction d; simpl; constructor; try reflexivity; assumption.
Qed.

Lemma uchars_nonnil (d : Decimal.uint) : d <> Decimal.Nil -> uchars d <> [].
Proof. destruct d; intros H; try discriminate. now elim H. Qed.

Lemma uchars_value (d : Decimal.uint) (acc : Z) :
  fold_left (fun acc c => 10 * acc + digit_value c) (uchars d) acc =
  acc * 10 ^ Z.of_N (DecimalPos.Unsigned.usize d)
  + Z.of_N (DecimalPos.Unsigned.of_lu (Decimal.rev d)).
Proof.
  revert acc. unfold uchars, chars.
  induction d; intros acc;
    [ simpl; lia | .. ];
    cbn [DecimalString.NilEmpty.string_of_uint list_ascii_of_string fold_left];
    rewrite IHd;
    set (r := DecimalPos.Unsigned.of_lu (Decimal.rev d));
    unfold Decimal.rev; cbn [Decimal.revapp];
    rewrite (DecimalPos.Unsigned.of_lu_revapp d);
    fold r;
    cbn [DecimalPos.Unsigned.usize DecimalPos.Unsigned.of_lu];
    rewrite N2Z.inj_succ, Z.pow_succ_r by lia;
    rewrite N2Z.inj_add, N2Z.inj_mul, N2Z.inj_pow;
    unfold digit_value; simpl N_of_ascii;
    rewrite ?N.mul_0_r, ?N.add_0_r; simpl Z.of_N; lia.
Qed.

Lemma digits_of_spec (n : N) :
  digits_of n <> [] /\ all_digits (digits_of n) /\
  digits_value (digits_of n) = Z.of_N n.
Proof.
  unfold digits_of, DecimalString.NilZero.string_of_uint.
  destruct n as [|p].
  - simpl. repeat split; [discriminate | repeat constructor].
  - cbn [N.to_uint].
    pose proof (DecimalPos.Unsigned.to_uint_nonnil p) as Hn.
    assert (E : chars match Pos.to_uint p with
                      | Decimal.Nil => "0"%string
                      | _ => DecimalString.NilEmpty.string_of_uint
                               (Pos.to_uint p)
                      end = uchars (Pos.to_uint p)).
    { destruct (Pos.to_uint p); try reflexivity. now elim Hn. }
    rewrite E. repeat split.
    + now apply uchars_nonnil.
    + apply uchars_digits.
    + unfold digits_value. rewrite uchars_value.
      rewrite <- DecimalPos.Unsigned.of_uint_alt,
        DecimalPos.Unsigned.of_to. lia.
Qed.

(** [str(z)] is an optional minus sign and the digits of [|z|]. *)
Lemma chars_str_of_int (z : Z) :
  chars (str_of_int z) =
  (if z <? 0 then ["-"%char] else []) ++ digits_of (Z.to_N (Z.abs z)).
Proof.
  unfold str_of_int, digits_of. destruct z; reflexivity.
Qed.

(* ================================================================== *)
(** * Scanning a run of digits *)

Lemma lstrip_id (sp : ascii -> bool) (s : list ascii) :
  (forall c, hd_error s = Some c -> sp c = false) -> lstrip sp s = s.
Proof.
  destruct s as [|c s]; simpl; intros H; [reflexivity|].
  now rewrite (H c eq_refl).
Qed.

Lemma rstrip_id (sp : ascii -> bool) (s : list ascii) :
  (forall c, hd_error (rev s) = Some c -> sp c = false) -> rstrip sp s = s.
Proof.
  intros H. unfold rstrip. rewrite lstrip_id by exact H. apply rev_involutive.
Qed.

Lemma strip_id (sp : ascii -> bool) (s : list ascii) :
  (forall c, hd_error s = Some c -> sp c = false) ->
  (forall c, hd_error (rev s) = Some c -> sp c = false) ->
  strip sp s = s.
Proof.
  intros H1 H2. unfold strip. rewrite (lstrip_id sp s H1).
  now apply rstrip_id.
Qed.

Lemma all_digits_hd (ds : list ascii) (c : ascii) :
  all_digits ds -> hd_error ds = Some c -> is_digit c = true.
Proof.
  destruct ds as [|x ds]; simpl; intros H [= <-]. now inversion H.
Qed.

Lemma all_digits_last (ds tl : list ascii) (c : ascii) :
  all_digits ds -> ds <> [] ->
  hd_error (rev (tl ++ ds)) = Some c -> is_digit c = true.
Proof.
  intros Hd Hn. rewrite rev_app_distr.
  assert (Hr : all_digits (rev ds)) by now apply Forall_rev.
  destruct (rev ds) as [|x r] eqn:E.
  - apply (f_equal (@rev ascii)) in E. rewrite rev_involutive in E.
    now elim Hn.
  - simpl. intros [= <-]. now inversion Hr.
Qed.

Lemma digit_groups_digits (ds : list ascii) :
  ds <> [] -> all_digits ds -> digit_groups ds = Some ds.
Proof.
  induction ds as [|c ds IH]; intros Hn Hd; [now elim Hn|].
  inversion Hd as [|? ? Hc Hds]; subst.
  cbn [digit_groups]. rewrite Hc.
  destruct ds as [|u ds']; [reflexivity|].
  inversion Hds as [|? ? Hu _]; subst.
  destruct (digit_facts u Hu) as (_ & _ & -> & _).
  rewrite IH; [reflexivity | discriminate | assumption].
Qed.

Lemma span_digits_all (ds : list ascii) :
  all_digits ds -> span_digits ds = (ds, []).
Proof.
  induction 1 as [|c ds Hc _ IH]; simpl; [reflexivity|].
  now rewrite Hc, IH.
Qed.

Lemma split_at_digits (ds r : list ascii) :
  all_digits ds -> split_at "/" (ds ++ "/"%char :: r) = Some (ds, r).
Proof.
  induction 1 as [|c ds Hc _ IH]; simpl; [reflexivity|].
  destruct (digit_facts c Hc) as (_ & _ & _ & -> & _).
  now rewrite IH.
Qed.

Lemma drop_underscores_digits (prev : option ascii) (ds : list ascii) :
  all_digits ds ->
  (forall p, prev = Some p -> Ascii.eqb p "_" = false) ->
  drop_underscores prev ds = Some ds.
Proof.
  intros Hd. revert prev.
  induction Hd as [|c ds Hc _ IH]; intros prev Hp; simpl.
  - destruct prev as [p|]; [|reflexivity]. now rewrite (Hp p eq_refl).
  - destruct (digit_facts c Hc) as (_ & _ & Hu & _). rewrite Hu.
    assert (E : drop_underscores (Some c) ds = Some ds).
    { apply IH. now intros p [= <-]. }
    destruct prev as [p|]; rewrite ?Hc, ?andb_false_r, E; reflexivity.
Qed.

Lemma int_of_digits_small (ds : list ascii) :
  (List.length ds <= int_max_str_digits)%nat ->
  int_of_digits ds = Ret (digits_value ds).
Proof.
  intros H. unfold int_of_digits.
  destruct (Nat.ltb_spec int_max_str_digits (List.length ds)); [lia|].
  reflexivity.
Qed.

Lemma decimal_digits_length (z : Z) :
  List.length (digits_of (Z.to_N (Z.abs z))) = decimal_digits z.
Proof.
  unfold decimal_digits. rewrite <- length_chars, chars_str_of_int.
  rewrite (Z.abs_eq (Z.abs z)) by apply Z.abs_nonneg.
  destruct (Z.ltb_spec (Z.abs z) 0); [lia|]. reflexivity.
Qed.

(* ================================================================== *)
(** * [Fraction] and [float] on decimal texts *)

Lemma chars_fraction_text (a b : Z) :
  0 < b ->
  chars (fraction_text a b) =
  (if a <? 0 then ["-"%char] else [])
    ++ digits_of (Z.to_N (Z.abs a))
    ++ "/"%char :: digits_of (Z.to_N b).
Proof.
  intros Hb. unfold fraction_text.
  rewrite !chars_app, !chars_str_of_int.
  destruct (Z.ltb_spec b 0); [lia|].
  rewrite (Z.abs_eq b) by lia.
  rewrite <- app_assoc. reflexivity.
Qed.

Lemma Fraction_of_fraction_text (a b : Z) :
  0 < b ->
  (decimal_digits a <= int_max_str_digits)%nat ->
  (decimal_digits b <= int_max_str_digits)%nat ->
  Fraction_of_string (fraction_text a b) =
  Ret {| numerator := a / Z.gcd a b; denominator := b / Z.gcd a b |}.
Proof.
  intros Hb La Lb.
  destruct (digits_of_spec (Z.to_N (Z.abs a))) as (Na & Da & Va).
  destruct (digits_of_spec (Z.to_N b)) as (Nb & Db & Vb).
  rewrite <- decimal_digits_length in La, Lb.
  rewrite (Z.abs_eq b) in Lb by lia.
  unfold Fraction_of_string.
  rewrite chars_fraction_text by exact Hb.
  set (da := digits_of (Z.to_N (Z.abs a))) in *.
  set (db := digits_of (Z.to_N b)) in *.
  assert (Hstrip : forall sgn : list ascii,
             (forall c, hd_error (sgn ++ da) = Some c -> re_space c = false) ->
             strip re_space (sgn ++ da ++ "/"%char :: db)
             = sgn ++ da ++ "/"%char :: db).
  { intros sgn Hs. apply strip_id.
    - intros c Hc. apply Hs. rewrite app_assoc in Hc.
      destruct (sgn ++ da) as [|x l] eqn:E; [|exact Hc].
      apply app_eq_nil in E. destruct E as [_ E]. now elim Na.
    - intros c Hc.
      assert (Hd : is_digit c = true).
      { apply (all_digits_last db (sgn ++ da ++ ["/"%char]) c Db Nb).
        rewrite <- !app_assoc. exact Hc. }
      now destruct (digit_facts c Hd) as (_ & -> & _). }
  assert (Hparts :
            match split_at "/" (da ++ "/"%char :: db) with
            | Some (num, denom) =>
                match digit_groups (rstrip re_space num),
                      digit_groups (lstrip re_space denom) with
                | Some nd, Some dd => nd = da /\ dd = db
                | _, _ => False
                end
            | None => False
            end).
  { rewrite split_at_digits by exact Da.
    rewrite rstrip_id, lstrip_id.
    - rewrite !digit_groups_digits by assumption. auto.
    - intros c Hc. apply (all_digits_hd db c Db) in Hc.
      now destruct (digit_facts c Hc) as (_ & -> & _).
    - intros c Hc. apply (all_digits_last da [] c Da Na) in Hc.
      now destruct (digit_facts c Hc) as (_ & -> & _). }
  assert (Hhd : exists c r, da = c :: r /\ is_digit c = true).
  { destruct da as [|c r]; [now elim Na|]. exists c, r. split; auto.
    now inversion Da. }
  destruct Hhd as (c & r & Eda & Hc).
  destruct (digit_facts c Hc) as (_ & Hsp & _ & _ & Hm & Hp & _).
  destruct (Z.ltb_spec a 0) as [Ha|Ha].
  - rewrite (Hstrip ["-"%char]) by (simpl; now intros ? [= <-]).
    cbn [app]. rewrite Ascii.eqb_refl.
    destruct (split_at "/" (da ++ "/"%char :: db)) as [[num denom]|];
      [|destruct Hparts].
    destruct (digit_groups (rstrip re_space num)) as [nd|];
      [|destruct Hparts].
    destruct (digit_groups (lstrip re_space denom)) as [dd|];
      [|destruct Hparts].
    destruct Hparts as [-> ->].
    rewrite !int_of_digits_small by assumption. cbn [bind].
    rewrite Va, Vb, !Z2N.id by lia.
    replace (- Z.abs a) with a by lia.
    destruct (Z.eqb_spec b 0); [lia|]. reflexivity.
  - rewrite (Hstrip []).
    2:{ cbn [app]. rewrite Eda. simpl. now intros ? [= <-]. }
    cbn [app]. rewrite Eda. cbn [app]. rewrite Hm, Hp.
    change (c :: r ++ "/"%char :: db) with ((c :: r) ++ "/"%char :: db).
    rewrite <- Eda.
    destruct (split_at "/" (da ++ "/"%char :: db)) as [[num denom]|];
      [|destruct Hparts].
    destruct (digit_groups (rstrip re_space num)) as [nd|];
      [|destruct Hparts].
    destruct (digit_groups (lstrip re_space denom)) as [dd|];
      [|destruct Hparts].
    destruct Hparts as [-> ->].
    rewrite !int_of_digits_small by assumption. cbn [bind].
    rewrite Va, Vb, !Z2N.id by lia.
    rewrite (Z.abs_eq a) by lia.
    destruct (Z.eqb_spec b 0); [lia|]. reflexivity.
Qed.

(** Known doubles: 1/3, 1/10, a tie that rounds to even, the largest
    integer below the overflow threshold and the threshold itself. *)
Lemma nearest_samples :
  nearest (1 # 3) = S754_finite false 6004799503160661 (-54) /\
  nearest (1 # 10) = S754_finite false 7205759403792794 (-56) /\
  nearest (- (2 ^ 53 + 1) # 1) = S754_finite true 4503599627370496 1 /\
  nearest ((2 ^ 1024 - 2 ^ 970 - 1) # 1)
  = S754_finite false 9007199254740991 971 /\
  nearest ((2 ^ 1024 - 2 ^ 970) # 1) = S754_infinity false.
Proof. repeat split; vm_compute; reflexivity. Qed.

Lemma nearest_unfold (a : Z) (b : positive) :
  nearest (a # b) = signed_nearest (a <? 0) (Z.abs a # b).
Proof. reflexivity. Qed.

Lemma signed_nearest_Qeq (neg : bool) (p q : Q) :
  p == q -> signed_nearest neg p = signed_nearest neg q.
Proof.
  intros H. unfold signed_nearest. now rewrite (Qred_complete p q H).
Qed.

(** The quotient of a fraction and of its reduced form round alike. *)
Lemma int_truediv_reduced (a b : Z) :
  0 < b ->
  int_truediv (a / Z.gcd a b) (b / Z.gcd a b) =
  if is_inf (nearest (a # Z.to_pos b)) then Raise OverflowError
  else Ret (nearest (a # Z.to_pos b)).
Proof.
  intros Hb.
  pose proof (Z.gcd_nonneg a b) as Hg0.
  assert (Hg : 0 < Z.gcd a b).
  { destruct (Z.eq_dec (Z.gcd a b) 0) as [E|E]; [|lia].
    apply Z.gcd_eq_0_r in E. lia. }
  destruct (Z.gcd_divide_l a b) as [a' Ea].
  destruct (Z.gcd_divide_r a b) as [b' Eb].
  set (g := Z.gcd a b) in *.
  assert (Ha' : a / g = a') by (rewrite Ea; apply Z.div_mul; lia).
  assert (Hb' : b / g = b') by (rewrite Eb; apply Z.div_mul; lia).
  rewrite Ha', Hb'.
  assert (Hb'0 : 0 < b') by nia.
  unfold int_truediv.
  destruct (Z.eqb_spec b' 0); [lia|].
  destruct (Z.ltb_spec b' 0); [lia|].
  rewrite xorb_false_r, nearest_unfold.
  assert (Es : (a' <? 0) = (a <? 0)).
  { destruct (Z.ltb_spec a' 0), (Z.ltb_spec a 0); try reflexivity; nia. }
  rewrite Es.
  rewrite (signed_nearest_Qeq _ (Z.abs a' # Z.to_pos (Z.abs b'))
                                (Z.abs a # Z.to_pos b)).
  - reflexivity.
  - unfold Qeq. cbn [Qnum Qden].
    rewrite !Z2Pos.id by lia.
    rewrite (Z.abs_eq b') by lia.
    rewrite Ea, Eb, Z.abs_mul, (Z.abs_eq g) by lia. ring.
Qed.

Lemma parse_cr_fraction_text (a b : Z) :
  0 < b ->
  (decimal_digits a <= int_max_str_digits)%nat ->
  (decimal_digits b <= int_max_str_digits)%nat ->
  parse_cr (PyStr (fraction_text a b)) =
  if is_inf (nearest (a # Z.to_pos b)) then Raise OverflowError
  else Ret (Some (nearest (a # Z.to_pos b))).
Proof.
  intros Hb La Lb. unfold parse_cr.
  assert (Hs : str_contains "/" (PyStr (fraction_text a b)) = true).
  { unfold str_contains, contains.
    rewrite chars_fraction_text by exact Hb.
    rewrite !existsb_app. cbn [existsb]. rewrite Ascii.eqb_refl.
    cbn [orb]. now rewrite !orb_true_r. }
  rewrite Hs. cbn [is_str andb].
  rewrite Fraction_of_fraction_text by assumption.
  cbn [bind]. unfold float_of_Fraction. cbn [numerator denominator].
  rewrite int_truediv_reduced by exact Hb.
  destruct (is_inf (nearest (a # Z.to_pos b))); reflexivity.
Qed.

Lemma float_of_int_nearest (z : Z) :
  float_of_int z =
  if is_inf (nearest (z # 1)) then Raise OverflowError
  else Ret (nearest (z # 1)).
Proof. reflexivity. Qed.

Lemma float_of_decimal_text (z : Z) :
  float_of_string (str_of_int z) = Ret (nearest (z # 1)).
Proof.
  destruct (digits_of_spec (Z.to_N (Z.abs z))) as (Nz & Dz & Vz).
  unfold float_of_string. rewrite chars_str_of_int.
  set (dz := digits_of (Z.to_N (Z.abs z))) in *.
  assert (Hhd : exists c r, dz = c :: r /\ is_digit c = true).
  { destruct dz as [|c r]; [now elim Nz|]. exists c, r. split; auto.
    now inversion Dz. }
  destruct Hhd as (c & r & Edz & Hc).
  destruct (digit_facts c Hc)
    as (Hsp & _ & Hu & _ & Hm & Hp & Hdot & Hlow & Hi & Hn).
  assert (Hstrip : forall sgn : list ascii,
             (forall x, hd_error (sgn ++ dz) = Some x -> is_space x = false) ->
             strip is_space (sgn ++ dz) = sgn ++ dz).
  { intros sgn Hs. apply strip_id; [exact Hs|].
    intros x Hx. apply (all_digits_last dz sgn x Dz Nz) in Hx.
    now destruct (digit_facts x Hx) as (-> & _). }
  assert (Hdrop : drop_underscores (Some "-"%char) dz = Some dz
                  /\ drop_underscores None dz = Some dz).
  { split; apply drop_underscores_digits; try exact Dz.
    - now intros p [= <-].
    - discriminate. }
  destruct Hdrop as [Hd1 Hd2].
  assert (Hword : forall w : string,
             (exists t, w = String "i" t) \/ (exists t, w = String "n" t) ->
             String.eqb (string_of_list_ascii (map lower dz)) w = false).
  { intros w Hw. rewrite Edz. cbn [map string_of_list_ascii]. rewrite Hlow.
    destruct Hw as [[t ->]|[t ->]]; cbn [String.eqb];
      [rewrite Hi | rewrite Hn]; reflexivity. }
  assert (Hlit : decimal_literal dz = Some ((Z.abs z * 1) # 1)).
  { unfold decimal_literal. rewrite span_digits_all by exact Dz.
    cbn [exponent]. rewrite app_nil_r.
    rewrite Edz at 1. rewrite Vz, Z2N.id by lia. reflexivity. }
  assert (Hval : forall neg, signed_nearest neg ((Z.abs z * 1) # 1)
                             = signed_nearest neg (Z.abs z # 1)).
  { intros neg. now rewrite Z.mul_1_r. }
  destruct (Z.ltb_spec z 0) as [Hz|Hz].
  - rewrite (Hstrip ["-"%char]) by (simpl; now intros ? [= <-]).
    cbn [app drop_underscores]. change (Ascii.eqb "-" "_") with false.
    cbv iota. rewrite Hd1. cbn [option_map take_sign].
    rewrite Ascii.eqb_refl.
    rewrite !Hword by (eauto).
    cbn [orb]. rewrite Hlit, Hval, nearest_unfold.
    destruct (Z.ltb_spec z 0); [reflexivity | lia].
  - rewrite (Hstrip []) by (cbn [app]; rewrite Edz; simpl; now intros ? [= <-]).
    cbn [app]. rewrite Hd2.
    unfold take_sign. rewrite Edz at 1. rewrite Hm, Hp.
    rewrite !Hword by (eauto).
    cbn [orb]. rewrite Hlit, Hval, nearest_unfold.
    destruct (Z.ltb_spec z 0); [lia | reflexivity].
Qed.

(* ================================================================== *)
(** * The derived columns *)





(** ** Products of [int64] cells *)




(** ** Products of doubles that hold integers *)



















(* ================================================================== *)
(** * Stable sorting and the two ends of a ranking *)

Section Ranking.
Context {A : Type} (key : A -> option Z).

Lemma insert_perm (before : A -> A -> bool) (x : A) (l : list A) :
  Permutation (Pandas.insert before x l) (x :: l).
Proof.
  induction l as [|y l IH]; simpl; [reflexivity|].
  destruct (before x y); [reflexivity|].
  rewrite IH. apply perm_swap.
Qed.

Lemma stable_sort_perm (before : A -> A -> bool) (l : list A) :
  Permutation (Pandas.stable_sort before l) l.
Proof.
  induction l as [|x l IH]; simpl; [reflexivity|].
  rewrite insert_perm. now constructor.
Qed.

Lemma stable_sort_length (before : A -> A -> bool) (l : list A) :
  List.length (Pandas.stable_sort before l) = List.length l.
Proof. apply Permutation_length, stable_sort_perm. Qed.

Lemma dropna_present (l : list A) (r : A) :
  In r (Pandas.dropna key l) -> key r <> None.
Proof.
  unfold Pandas.dropna. rewrite filter_In. unfold Pandas.notna.
  intros [_ H]. destruct (key r); discriminate.
Qed.

Lemma dropna_all (l : list A) :
  (forall r, In r l -> key r <> None) ->
  Pandas.dropna key l = l /\ Pandas.nan_rows key l = [].
Proof.
  intros H. unfold Pandas.dropna, Pandas.nan_rows. split.
  - apply filter_all. intros r Hr. unfold Pandas.notna.
    specialize (H r Hr). now destruct (key r).
  - apply filter_none. intros r Hr. unfold Pandas.notna.
    specialize (H r Hr). now destruct (key r).
Qed.










End Ranking.



(* ================================================================== *)
(** * The challenge-rating parser *)

(** Outside the fraction branch the parser always returns: whatever
    [float] raises becomes the missing value. *)
Lemma parse_cr_returns_without_slash (cr : object) :
  is_str cr && str_contains "/" cr = false -> returns (parse_cr cr).
Proof.
  intros H. unfold parse_cr, returns. rewrite H.
  destruct (py_float cr); eauto.
Qed.

(** A quotient too large for a double leaves the fraction branch as an
    [OverflowError]; the same integer given as a number is caught. *)
Lemma parse_cr_large_fraction :
  parse_cr (PyStr (fraction_text (10 ^ 400) 1)) = Raise OverflowError /\
  parse_cr (PyInt (10 ^ 400)) = Ret None.
Proof. split; vm_compute; reflexivity. Qed.

(** C1: the parser does raise.  On ["1/0"] the call of [Fraction] raises
    [ZeroDivisionError] and on ["a/b"] it raises [ValueError]; both leave
    [parse_cr], which guards only the [float(cr)] branch, so neither input
    yields the missing value. *)
Theorem parse_cr_raises_on_bad_fraction :
  parse_cr (PyStr "1/0") = Raise ZeroDivisionError /\
  parse_cr (PyStr "a/b") = Raise ValueError.
Proof. split; vm_compute; reflexivity. Qed.

(** C4, as stated, fails for a negative denominator: ["1/-4"] is the text
    of the integers 1 and -4, and [Fraction] rejects it. *)
Lemma parse_cr_negative_denominator :
  fraction_text 1 (-4) = "1/-4"%string /\
  parse_cr (PyStr (fraction_text 1 (-4))) = Raise ValueError /\
  parse_cr (PyStr (fraction_text 1 (-4)))
    <> Ret (Some (nearest (quotient 1 (-4)))).
Proof.
  split; [reflexivity|]. split; [vm_compute; reflexivity|].
  vm_compute. discriminate.
Qed.

(** C4 (amended): the text ["a/b"] of an integer [a] and a positive integer
    [b], each of at most 4300 digits and with a quotient in the range of
    the doubles, is mapped to the double nearest to [a/b]; every input
    outside the fraction branch that [float] converts is mapped to that
    conversion, so an [int] in the range of the doubles to the double
    nearest to it, a [float] to itself and the decimal text of an integer
    to the double nearest to it; null is mapped to the missing value.  So
    ["1/4"] gives 0.25, and 5 and ["5"] give 5.0. *)
Theorem parse_cr_values :
  (forall a b : Z,
      0 < b ->
      (decimal_digits a <= int_max_str_digits)%nat ->
      (decimal_digits b <= int_max_str_digits)%nat ->
      is_inf (nearest (quotient a b)) = false ->
      parse_cr (PyStr (fraction_text a b))
      = Ret (Some (nearest (quotient a b)))) /\
  (forall (cr : object) (x : float),
      is_str cr && str_contains "/" cr = false ->
      py_float cr = Ret x ->
      parse_cr cr = Ret (Some x)) /\
  (forall z : Z,
      is_inf (nearest (z # 1)) = false ->
      parse_cr (PyInt z) = Ret (Some (nearest (z # 1)))) /\
  (forall x : float, parse_cr (PyFloat x) = Ret (Some x)) /\
  (forall z : Z,
      parse_cr (PyStr (str_of_int z)) = Ret (Some (nearest (z # 1)))) /\
  parse_cr PyNone = Ret None /\
  parse_cr (PyStr "1/4") = Ret (Some f_0_25) /\
  parse_cr (PyInt 5) = Ret (Some f_5_0) /\
  parse_cr (PyStr "5") = Ret (Some f_5_0).
Proof.
  split; [|split; [|split; [|split; [|split; [|split; [|split; [|split]]]]]]].
  - intros a b Hb La Lb Hfin.
    assert (Eq : quotient a b = a # Z.to_pos b).
    { unfold quotient. rewrite (Z.abs_eq b), (Z.sgn_pos b) by lia.
      now rewrite Z.mul_1_r. }
    rewrite Eq in *.
    rewrite parse_cr_fraction_text by assumption. now rewrite Hfin.
  - intros cr x Hs Hx. unfold parse_cr. now rewrite Hs, Hx.
  - intros z Hfin. unfold parse_cr. cbn [is_str andb py_float].
    rewrite float_of_int_nearest, Hfin. reflexivity.
  - reflexivity.
  - intros z. unfold parse_cr.
    assert (Hs : str_contains "/" (PyStr (str_of_int z)) = false).
    { unfold str_contains, contains. rewrite chars_str_of_int.
      destruct (digits_of_spec (Z.to_N (Z.abs z))) as (_ & Dz & _).
      rewrite existsb_app.
      assert (E : existsb (Ascii.eqb "/") (digits_of (Z.to_N (Z.abs z)))
                  = false).
      { induction Dz as [|c ds Hc _ IH]; cbn [existsb]; [reflexivity|].
        destruct (digit_facts c Hc) as (_ & _ & _ & Hsl & _).
        rewrite Ascii.eqb_sym, Hsl. exact IH. }
      rewrite E. now destruct (z <? 0). }
    rewrite Hs. cbn [is_str andb py_float].
    now rewrite float_of_decimal_text.
  - vm_compute. reflexivity.
  - vm_compute. reflexivity.
  - vm_compute. reflexivity.
  - vm_compute. reflexivity.
Qed.

Lemma parse_cr_values_witness :
  0 < 4 /\
  parse_cr (PyStr (fraction_text 1 4)) = Ret (Some (nearest (quotient 1 4))) /\
  parse_cr (PyInt 5) = Ret (Some (nearest (5 # 1))) /\
  parse_cr (PyStr "2.5e-1") = Ret (Some f_0_25).
Proof.
  split; [lia|]. split; [|split].
  - apply (proj1 parse_cr_values 1 4).
    + lia.
    + apply Nat.leb_le. vm_compute. reflexivity.
    + apply Nat.leb_le. vm_compute. reflexivity.
    + vm_compute. reflexivity.
  - apply (proj1 (proj2 (proj2 parse_cr_values)) 5). vm_compute. reflexivity.
  - apply (proj1 (proj2 parse_cr_values) (PyStr "2.5e-1") f_0_25).
    + vm_compute. reflexivity.
    + vm_compute. reflexivity.
Defined.

(* ================================================================== *)
(** * The survivability column *)




(** The example of the specification: 15 times 20 is 300. *)
Lemma survivability_example :
  map survivability
      (table_of [monster (PyStr "1/4") (Some 15) (Some 20) None])
  = [Some 300].
Proof. vm_compute. reflexivity. Qed.

(* ================================================================== *)
(** * The filter stage *)

(** C3: the filter returns the rows that satisfy the contract, and only
    those: it is the table restricted to the rows whose ranges all hold
    and, under the flag, whose legendary field is ["Legendary"].  A row
    whose [cr_num] is missing is never returned, nor, under the flag, a
    row with no legendary field. *)
Theorem df_filt_exact (c : FilterCriteria) (df : DataFrame) :
  df_filt c df = filter (keeps c) df /\
  (forall r, keeps c r = true <-> Satisfies c r) /\
  (forall r, In r (df_filt c df) <-> In r df /\ Satisfies c r) /\
  (forall r, In r (df_filt c df) -> is_nan (cr_num r) = false) /\
  (forall r, legendary_only c = true -> In r (df_filt c df) ->
             legendary (base r) <> None).
Proof.
  split; [apply df_filt_filter|].
  split; [apply keeps_spec|].
  split; [apply df_filt_In|]. split.
  - intros r Hr. apply df_filt_In in Hr.
    destruct Hr as (_ & _ & _ & [H _] & _).
    now apply fle_not_nan in H.
  - intros r Hflag Hr. apply df_filt_In in Hr.
    destruct Hr as (_ & _ & _ & _ & H). rewrite (H Hflag). discriminate.
Qed.

(** C6: filtering a filtered table again with the same criteria changes
    nothing. *)
Theorem df_filt_idempotent (c : FilterCriteria) (df : DataFrame) :
  df_filt c (df_filt c df) = df_filt c df.
Proof. rewrite !df_filt_filter. apply filter_idem. Qed.

(** C8: the output of the filter is the input with some rows removed.
    The rows that stay keep their relative order, and no row occurs more
    often than in the input. *)
Theorem df_filt_subsequence (c : FilterCriteria) (df : DataFrame) :
  Subseq (df_filt c df) df.
Proof. rewrite df_filt_filter. apply Subseq_filter. Qed.

(** C10: a row whose [ac] or [hp] is missing is not in the output of the
    filter, whatever the criteria. *)
Theorem df_filt_drops_missing_ac_hp (c : FilterCriteria) (df : DataFrame)
        (r : Row) :
  ac (base r) = None \/ hp (base r) = None -> ~ In r (df_filt c df).
Proof.
  intros Hm Hr. apply df_filt_In in Hr.
  destruct Hr as (_ & (a & Ha & _) & (h & Hh & _) & _).
  destruct Hm as [E|E]; congruence.
Qed.

Lemma df_filt_drops_missing_ac_hp_witness :
  (ac stray = None \/ hp stray = None) /\
  forall r, In r (table_of [stray]) ->
            ~ In r (df_filt wide_open (table_of [stray])).
Proof.
  split; [left; reflexivity|].
  intros r Hr.
  apply (df_filt_drops_missing_ac_hp wide_open (table_of [stray]) r).
  destruct Hr as [<-|[]]. left. reflexivity.
Defined.

(** C2, as stated, fails: with the default criteria the row without a
    challenge rating is dropped. *)
Lemma default_filter_drops_missing_cr :
  derive two_monsters = Ret (table_of two_monsters) /\
  default_criteria (table_of two_monsters) = Ret two_monsters_defaults /\
  List.length (table_of two_monsters) = 2%nat /\
  List.length (df_filt two_monsters_defaults (table_of two_monsters))
  = 1%nat /\
  df_filt two_monsters_defaults (table_of two_monsters)
  <> table_of two_monsters.
Proof.
  split; [vm_compute; reflexivity|].
  split; [vm_compute; reflexivity|].
  split; [vm_compute; reflexivity|].
  split; [vm_compute; reflexivity|].
  vm_compute. discriminate.
Qed.

(** A negative challenge rating lies below the constant lower bound 0.0 of
    the defaults, and a row without armor class fails both of its range
    tests. *)
Lemma default_filter_drops_negative_cr :
  default_filter (table_of [monster (PyStr "-1") (Some 10) (Some 20) None])
  = Ret [].
Proof. vm_compute. reflexivity. Qed.

Lemma default_filter_drops_missing_ac :
  default_filter (table_of (herd 2 ++ [stray])) = Ret (table_of (herd 2)).
Proof. vm_compute. reflexivity. Qed.

(** The defaults do not exist for an empty table: the bounds of an empty
    column are missing and [int] refuses them. *)
Lemma default_criteria_empty : default_criteria [] = Raise ValueError.
Proof. reflexivity. Qed.

(** C2 (amended): for a table that is not empty and in which every row
    has its [ac], its [hp] and a [cr_num] that is at least 0.0, the
    default criteria exist and the filter returns the whole table. *)
Theorem default_filter_identity (df : DataFrame) :
  df <> [] ->
  (forall r, In r df ->
             ac (base r) <> None /\ hp (base r) <> None /\
             fle zero (cr_num r) = true) ->
  default_filter df = Ret df.
Proof.
  intros Hne Hall.
  destruct df as [|r0 df']; [now elim Hne|].
  set (df := r0 :: df') in *.
  assert (Hr0 : In r0 df) by now left.
  destruct (Hall r0 Hr0) as (Ha0 & Hh0 & _).
  destruct (ac (base r0)) as [a0|] eqn:Ea0; [|now elim Ha0].
  destruct (hp (base r0)) as [h0|] eqn:Eh0; [|now elim Hh0].
  assert (Hina : In (Some a0) (col_ac df)).
  { unfold col_ac. rewrite <- Ea0.
    now apply (in_map (fun r => ac (base r))). }
  assert (Hinh : In (Some h0) (col_hp df)).
  { unfold col_hp. rewrite <- Eh0.
    now apply (in_map (fun r => hp (base r))). }
  destruct (min_lower_bound _ _ Hina) as (alo & Ealo & Halo).
  destruct (max_upper_bound _ _ Hina) as (ahi & Eahi & Hahi).
  destruct (min_lower_bound _ _ Hinh) as (hlo & Ehlo & Hhlo).
  destruct (max_upper_bound _ _ Hinh) as (hhi & Ehhi & Hhhi).
  unfold default_filter, default_criteria.
  rewrite Ealo, Eahi, Ehlo, Ehhi.
  cbn [py_int bind slider checkbox]. f_equal.
  rewrite df_filt_filter. apply filter_all.
  intros r Hr. apply keeps_spec.
  destruct (Hall r Hr) as (Ha & Hh & Hc).
  unfold Satisfies, within, fwithin.
  cbn [min_ac max_ac min_hp max_hp min_cr max_cr legendary_only].
  destruct (ac (base r)) as [a|] eqn:Ea; [|now elim Ha].
  destruct (hp (base r)) as [h|] eqn:Eh; [|now elim Hh].
  assert (In (Some a) (col_ac df)).
  { unfold col_ac. rewrite <- Ea.
    now apply (in_map (fun r => ac (base r))). }
  assert (In (Some h) (col_hp df)).
  { unfold col_hp. rewrite <- Eh.
    now apply (in_map (fun r => hp (base r))). }
  split; [exists a; split; [reflexivity|split; auto]|].
  split; [exists h; split; [reflexivity|split; auto]|].
  split; [|discriminate].
  split; [exact Hc|].
  apply fmax_upper_bound.
  - exact (in_map cr_num df r Hr).
  - now apply fle_not_nan in Hc.
Qed.

Lemma default_filter_identity_witness :
  table_of (herd 3) <> [] /\
  default_filter (table_of (herd 3)) = Ret (table_of (herd 3)).
Proof.
  split; [vm_compute; discriminate|].
  apply (default_filter_identity (table_of (herd 3))).
  - vm_compute. discriminate.
  - intros r Hr. vm_compute in Hr.
    destruct Hr as [<-|[<-|[<-|[]]]];
      (split; [discriminate | split; [discriminate | reflexivity]]).
Defined.

(** The example of the specification: the criteria [minAC = maxAC = 10]
    keep the row with armor class 10 and drop the one with 11. *)
Lemma df_filt_example :
  map (fun r => ac (base r))
      (df_filt {| min_ac := 10; max_ac := 10; min_hp := 0; max_hp := 100;
                  min_cr := zero; max_cr := f_5_0; legendary_only := false |}
               (table_of [monster (PyInt 1) (Some 10) (Some 5) None;
                          monster (PyInt 1) (Some 11) (Some 5) None]))
  = [Some 10].
Proof. vm_compute. reflexivity. Qed.

(* ================================================================== *)
(** * The survivability rankings *)


Lemma firstn_subset {B : Type} (n : nat) (l : list B) (x : B) :
  In x (firstn n l) -> In x l.
Proof.
  intros H. rewrite <- (firstn_skipn n l). apply in_or_app. now left.
Qed.






(** C9, as stated, fails: a table with fewer than ten present
    survivabilities lists its rows without one too.  Here two rows have
    one and the third has none; the sliders are built, and both rankings
    end with the third row. *)
Lemma rankings_list_missing :
  derive (herd 2 ++ [stray]) = Ret (table_of (herd 2 ++ [stray])) /\
  default_criteria (table_of (herd 2 ++ [stray])) = Ret pair_defaults /\
  map l_survivability (top10 (table_of (herd 2 ++ [stray])))
  = [Some 2; Some 1; None] /\
  map l_survivability (bot10 (table_of (herd 2 ++ [stray])))
  = [Some 1; Some 2; None].
Proof.
  split; [vm_compute; reflexivity|].
  split; [vm_compute; reflexivity|].
  split; vm_compute; reflexivity.
Qed.

(** C9 (amended): when at least ten rows of the table have a present
    survivability, no record of either ranking has a missing one. *)
Theorem rankings_skip_missing (df : DataFrame) :
  (10 <= List.length (Pandas.dropna survivability df))%nat ->
  forall x, In x (top10 df) \/ In x (bot10 df) ->
            l_survivability x <> None.
Proof.
  intros Hlen x Hx.
  assert (Hsorted : forall before,
             In x (map show_cols
                     (firstn 10
                        (Pandas.stable_sort before
                           (Pandas.dropna survivability df)
                         ++ Pandas.nan_rows survivability df))) ->
             l_survivability x <> None).
  { intros before H. apply in_map_iff in H. destruct H as (r & <- & Hr).
    rewrite firstn_app, stable_sort_length in Hr.
    replace (10 - List.length (Pandas.dropna survivability df))%nat
      with 0%nat in Hr by lia.
    rewrite firstn_O, app_nil_r in Hr.
    apply firstn_subset in Hr.
    apply (Permutation_in _ (stable_sort_perm before _)) in Hr.
    now apply dropna_present in Hr. }
  destruct Hx as [Hx|Hx]; eapply Hsorted; exact Hx.
Qed.

Lemma rankings_skip_missing_witness :
  (10 <= List.length
           (Pandas.dropna survivability (table_of (herd 10 ++ [stray]))))%nat
  /\
  forall x, In x (top10 (table_of (herd 10 ++ [stray]))) \/
            In x (bot10 (table_of (herd 10 ++ [stray]))) ->
            l_survivability x <> None.
Proof.
  split; [vm_compute; repeat constructor|].
  apply (rankings_skip_missing (table_of (herd 10 ++ [stray]))).
  vm_compute. repeat constructor.
Defined.

(* ================================================================== *)
(** * Loading: which cells stop the script *)

Lemma int_of_digits_exn (ds : list ascii) (e : exn) :
  int_of_digits ds = Raise e -> e = ValueError.
Proof.
  unfold int_of_digits.
  destruct (int_max_str_digits <? List.length ds)%nat; congruence.
Qed.

Lemma Fraction_of_string_exn (s : string) (e : exn) :
  Fraction_of_string s = Raise e -> e = ValueError \/ e = ZeroDivisionError.
Proof.
  unfold Fraction_of_string.
  destruct (match strip re_space (chars s) with
            | [] => (false, strip re_space (chars s))
            | c :: rest =>
                if Ascii.eqb c "-" then (true, rest)
                else if Ascii.eqb c "+" then (false, rest)
                else (false, strip re_space (chars s))
            end) as [neg body].
  destruct (split_at "/" body) as [[num denom]|]; [|intros [= <-]; auto].
  destruct (digit_groups (rstrip re_space num)) as [nd|];
    [|intros [= <-]; auto].
  destruct (digit_groups (lstrip re_space denom)) as [dd|];
    [|intros [= <-]; auto].
  destruct (int_of_digits nd) as [n|e1] eqn:En; cbn [bind].
  2:{ intros [= <-]. left. now apply (int_of_digits_exn nd). }
  destruct (int_of_digits dd) as [d|e2] eqn:Ed; cbn [bind].
  2:{ intros [= <-]. left. now apply (int_of_digits_exn dd). }
  destruct (d =? 0); [intros [= <-]; auto | discriminate].
Qed.

Lemma int_truediv_exn (a b : Z) (e : exn) :
  int_truediv a b = Raise e -> e = ZeroDivisionError \/ e = OverflowError.
Proof.
  unfold int_truediv. destruct (b =? 0); [intros [= <-]; auto|].
  destruct (is_inf _); [intros [= <-]; auto | discriminate].
Qed.

(** Only a text with a slash can make the parser raise, and then with one
    of three exceptions. *)
Lemma parse_cr_exn (cr : object) (e : exn) :
  parse_cr cr = Raise e ->
  exists s, cr = PyStr s /\ contains "/" s = true /\
            (e = ValueError \/ e = ZeroDivisionError \/ e = OverflowError).
Proof.
  unfold parse_cr.
  destruct (is_str cr && str_contains "/" cr) eqn:Hs.
  - destruct cr as [| | | |s|]; try discriminate.
    cbn [is_str str_contains andb] in Hs. intros H.
    exists s. split; [reflexivity|]. split; [exact Hs|].
    destruct (Fraction_of_string s) as [f|e1] eqn:Ef; cbn [bind] in H.
    + unfold float_of_Fraction in H.
      destruct (int_truediv (numerator f) (denominator f)) as [x|e2] eqn:Ex;
        cbn [bind] in H; [discriminate|].
      injection H as <-. apply int_truediv_exn in Ex. tauto.
    + injection H as <-. apply Fraction_of_string_exn in Ef. tauto.
  - destruct (py_float cr); discriminate.
Qed.

Lemma apply_raise {A B : Type} (f : A -> result B) (col : list A) (e : exn) :
  Pandas.apply f col = Raise e ->
  exists pre x post,
    col = pre ++ x :: post /\
    Forall (fun y => returns (f y)) pre /\ f x = Raise e.
Proof.
  induction col as [|x col IH]; simpl; [discriminate|].
  destruct (f x) as [y|e1] eqn:Ex; cbn [bind].
  - destruct (Pandas.apply f col) as [ys|e2]; cbn [bind]; [discriminate|].
    intros [= <-]. destruct (IH eq_refl) as (pre & z & post & -> & Hp & Hz).
    exists (x :: pre), z, post. repeat split; auto.
    constructor; [now exists y | exact Hp].
  - intros [= <-]. exists [], x, col. repeat split; auto.
Qed.

Lemma apply_returns {A B : Type} (f : A -> result B) (col : list A) :
  returns (Pandas.apply f col) <-> Forall (fun y => returns (f y)) col.
Proof.
  unfold returns. induction col as [|x col IH]; simpl.
  - split; [constructor | now exists []].
  - split.
    + intros [ys H].
      destruct (f x) as [y|e1] eqn:Ex; cbn [bind] in H; [|discriminate].
      destruct (Pandas.apply f col) as [ys'|e2]; cbn [bind] in H;
        [|discriminate].
      constructor; [now exists y|]. apply IH. now exists ys'.
    + intros H. inversion H as [|? ? [y Hy] Hc]; subst.
      apply IH in Hc. destruct Hc as [ys Hys].
      rewrite Hy, Hys. cbn [bind]. now exists (y :: ys).
Qed.

(** Each derived row holds what the parser returned on its own cell. *)
Lemma derive_cr_num (df : list MonsterRecord) (rows : DataFrame) :
  derive df = Ret rows ->
  forall r, In r rows ->
    exists v, parse_cr (cr (base r)) = Ret v /\
              cr_num r = Pandas.to_float64 v.
Proof.
  unfold derive.
  destruct (Pandas.apply parse_cr (map cr df)) as [cs|e] eqn:E;
    cbn [bind]; [|discriminate].
  intros [= <-].
  generalize (Pandas.mul (map ac df) (map hp df)) as ss.
  revert cs E. induction df as [|m df IH]; intros cs E ss r Hr.
  - destruct Hr.
  - simpl in E.
    destruct (parse_cr (cr m)) as [v|e1] eqn:Ev; cbn [bind] in E;
      [|discriminate].
    destruct (Pandas.apply parse_cr (map cr df)) as [cs'|e2] eqn:E';
      cbn [bind] in E; [|discriminate].
    injection E as <-. simpl in Hr.
    destruct ss as [|s ss]; [destruct Hr|].
    destruct Hr as [<-|Hr].
    + exists v. split; [exact Ev | reflexivity].
    + now apply (IH cs' eq_refl ss).
Qed.

(** X1: when the derivation raises, the first cell of the [cr] column on
    which the parser raises is a text with a slash, every cell before it
    parses, and the exception is the one of that cell: a [ValueError], a
    [ZeroDivisionError] or an [OverflowError]. *)
Theorem derive_raises_on_fraction (df : list MonsterRecord) (e : exn) :
  derive df = Raise e ->
  exists pre m post s,
    df = pre ++ m :: post /\
    Forall (fun m' => returns (parse_cr (cr m'))) pre /\
    cr m = PyStr s /\ contains "/" s = true /\
    parse_cr (cr m) = Raise e /\
    (e = ValueError \/ e = ZeroDivisionError \/ e = OverflowError).
Proof.
  unfold derive. intros H.
  destruct (Pandas.apply parse_cr (map cr df)) as [cs|e1] eqn:E;
    cbn [bind] in H; [discriminate|].
  injection H as <-.
  apply apply_raise in E. destruct E as (pre & x & post & Hcol & Hpre & Hx).
  apply map_eq_app in Hcol. destruct Hcol as (l1 & l2 & -> & <- & Hl2).
  destruct l2 as [|m l2]; [discriminate|].
  simpl in Hl2. injection Hl2 as <- <-.
  destruct (parse_cr_exn _ _ Hx) as (s & Hs & Hc & He).
  exists l1, m, l2, s. repeat split; auto.
  rewrite Forall_map in Hpre. exact Hpre.
Qed.

Lemma derive_raises_on_fraction_witness :
  derive (herd 2 ++ [monster (PyStr "1/0") (Some 3) (Some 4) None])
  = Raise ZeroDivisionError /\
  exists pre m post s,
    herd 2 ++ [monster (PyStr "1/0") (Some 3) (Some 4) None]
    = pre ++ m :: post /\
    Forall (fun m' => returns (parse_cr (cr m'))) pre /\
    cr m = PyStr s /\ contains "/" s = true /\
    parse_cr (cr m) = Raise ZeroDivisionError /\
    (ZeroDivisionError = ValueError \/
     ZeroDivisionError = ZeroDivisionError \/
     ZeroDivisionError = OverflowError).
Proof.
  split; [vm_compute; reflexivity|].
  apply (derive_raises_on_fraction
           (herd 2 ++ [monster (PyStr "1/0") (Some 3) (Some 4) None])).
  vm_compute. reflexivity.
Defined.

(** X2: the derivation returns a table exactly when the parser returns
    on every cell of the [cr] column; one cell that raises, anywhere,
    leaves no table. *)
Theorem derive_returns_iff (df : list MonsterRecord) :
  returns (derive df) <-> forall m, In m df -> returns (parse_cr (cr m)).
Proof.
  rewrite <- Forall_forall.
  rewrite <- (Forall_map cr (fun c => returns (parse_cr c))).
  rewrite <- apply_returns. unfold derive, returns.
  destruct (Pandas.apply parse_cr (map cr df)) as [cs|e]; cbn [bind].
  - split; eauto.
  - split; intros [x H]; discriminate.
Qed.

(* ================================================================== *)
(** * Rounding never yields NaN *)

Lemma iter_pos_invariant {A : Type} (P : A -> Prop) (f : A -> A) :
  (forall x, P x -> P (f x)) ->
  forall p x, P x -> P (iter_pos f p x).
Proof.
  intros Hf. induction p as [p IH|p IH|]; intros x Hx; simpl; auto.
Qed.

Lemma shr_1_nonneg (mrs : shr_record) :
  0 <= shr_m mrs -> 0 <= shr_m (shr_1 mrs).
Proof.
  destruct mrs as [m r s]. simpl.
  destruct m as [|[p|p|]|[p|p|]]; simpl; lia.
Qed.

Lemma shr_nonneg (mrs : shr_record) (e n : Z) :
  0 <= shr_m mrs -> 0 <= shr_m (fst (shr mrs e n)).
Proof.
  intros H. unfold shr. destruct n as [|p|p]; simpl; auto.
  apply (iter_pos_invariant (fun x => 0 <= shr_m x)); auto.
  apply shr_1_nonneg.
Qed.

Lemma shr_fexp_nonneg (m e : Z) (l : location) :
  0 <= m -> 0 <= shr_m (fst (shr_fexp prec emax m e l)).
Proof.
  intros H. unfold shr_fexp. apply shr_nonneg.
  destruct l as [|[| |]]; simpl; exact H.
Qed.

Lemma binary_round_aux_not_nan (s : bool) (m e : Z) (l : location) :
  0 <= m -> is_nan (binary_round_aux prec emax s m e l) = false.
Proof.
  intros H. unfold binary_round_aux.
  pose proof (shr_fexp_nonneg m e l H) as H1.
  destruct (shr_fexp prec emax m e l) as [mrs' e'].
  cbn [fst] in H1.
  assert (H2 : 0 <= round_nearest_even (shr_m mrs')
                      (loc_of_shr_record mrs')).
  { unfold round_nearest_even.
    destruct (loc_of_shr_record mrs') as [|[| |]];
      try destruct (Z.even (shr_m mrs')); lia. }
  pose proof (shr_fexp_nonneg _ e' loc_Exact H2) as H3.
  destruct (shr_fexp prec emax _ e' loc_Exact) as [mrs'' e''].
  cbn [fst] in H3.
  destruct (shr_m mrs'') as [|p|p]; [reflexivity | | lia].
  now destruct (e'' <=? emax - prec).
Qed.

Lemma round_ratio_not_nan (neg : bool) (n d : Z) :
  0 < d -> is_nan (round_ratio neg n d) = false.
Proof.
  intros Hd. unfold round_ratio.
  destruct n as [|p|p]; try reflexivity.
  unfold SFdiv_core_binary.
  set (s := 0 - 0 - _).
  set (m' := match s with
             | 0 => Z.pos p
             | Z.pos _ => Z.shiftl (Z.pos p) s
             | Z.neg _ => 0
             end).
  assert (Hm : 0 <= m').
  { unfold m'. destruct s; try lia. apply Z.shiftl_nonneg. lia. }
  pose proof (Z.div_pos m' d Hm Hd) as Hq.
  unfold Z.div in Hq.
  destruct (Z.div_eucl m' d) as [q r]. cbn [fst] in Hq.
  now apply binary_round_aux_not_nan.
Qed.

Lemma signed_nearest_not_nan (neg : bool) (q : Q) :
  is_nan (signed_nearest neg q) = false.
Proof. unfold signed_nearest. apply round_ratio_not_nan. reflexivity. Qed.

(** X3: on a text with a slash the parser never degrades to the missing
    value and never returns NaN or an infinity: when it returns, the
    result is a finite number (or a zero). *)
Theorem parse_cr_fraction_finite (s : string) (v : option float) :
  contains "/" s = true ->
  parse_cr (PyStr s) = Ret v ->
  exists x, v = Some x /\ is_nan x = false /\ is_inf x = false.
Proof.
  intros Hs. unfold parse_cr. cbn [is_str str_contains andb]. rewrite Hs.
  destruct (Fraction_of_string s) as [f|e]; cbn [bind]; [|discriminate].
  unfold float_of_Fraction, int_truediv.
  destruct (denominator f =? 0); cbn [bind]; [discriminate|].
  set (x := signed_nearest _ _).
  pose proof (signed_nearest_not_nan
                (xorb (numerator f <? 0) (denominator f <? 0))
                (Z.abs (numerator f) # Z.to_pos (Z.abs (denominator f))))
    as Hn.
  fold x in Hn.
  destruct (is_inf x) eqn:Hi; cbn [bind]; [discriminate|].
  intros [= <-]. exists x. auto.
Qed.

Lemma parse_cr_fraction_finite_witness :
  contains "/" "3/8" = true /\
  exists x, Some (S754_finite false 6755399441055744 (-54)) = Some x /\
            is_nan x = false /\ is_inf x = false.
Proof.
  split; [reflexivity|].
  apply (parse_cr_fraction_finite "3/8").
  - reflexivity.
  - vm_compute. reflexivity.
Defined.

(* ================================================================== *)
(** * More on the filter stage *)

Lemma Subseq_filter_impl {A : Type} (p q : A -> bool) (l : list A) :
  (forall x, In x l -> p x = true -> q x = true) ->
  Subseq (filter p l) (filter q l).
Proof.
  induction l as [|x l IH]; simpl; intros H; [constructor|].
  assert (IH' : Subseq (filter p l) (filter q l)) by (apply IH; auto).
  destruct (p x) eqn:Ep.
  - rewrite (H x (or_introl eq_refl) Ep). now constructor.
  - destruct (q x); [now constructor | exact IH'].
Qed.

Lemma Satisfies_wider (c c' : FilterCriteria) (r : Row) :
  Wider c c' -> Satisfies c r -> Satisfies c' r.
Proof.
  intros (H1 & H2 & H3 & H4 & H5 & H6 & H7)
         ((a & Ea & Ha) & (h & Eh & Hh) & (Hc1 & Hc2) & Hl).
  repeat split.
  - exists a. split; [exact Ea | lia].
  - exists h. split; [exact Eh | lia].
  - eapply fle_trans; eauto.
  - eapply fle_trans; eauto.
  - intros Hf. apply Hl, H7, Hf.
Qed.

(** X4: widening the ranges, or dropping the legendary-only flag, never
    loses a row: the narrower result is the wider one with rows
    removed. *)
Theorem df_filt_wider (c c' : FilterCriteria) (df : DataFrame) :
  Wider c c' -> Subseq (df_filt c df) (df_filt c' df).
Proof.
  intros Hw. rewrite !df_filt_filter. apply Subseq_filter_impl.
  intros r _ Hr. apply keeps_spec. apply keeps_spec in Hr.
  now apply (Satisfies_wider c c').
Qed.

Lemma df_filt_wider_witness :
  Wider two_monsters_defaults wide_open /\
  Subseq (df_filt two_monsters_defaults (table_of two_monsters))
         (df_filt wide_open (table_of two_monsters)).
Proof.
  assert (H : Wider two_monsters_defaults wide_open).
  { unfold Wider. simpl. repeat split; try lia; try reflexivity. }
  split; [exact H|].
  apply (df_filt_wider two_monsters_defaults wide_open
                       (table_of two_monsters) H).
Defined.

(** X5: two filters can be applied in either order. *)
Theorem df_filt_commute (c1 c2 : FilterCriteria) (df : DataFrame) :
  df_filt c1 (df_filt c2 df) = df_filt c2 (df_filt c1 df).
Proof.
  rewrite !df_filt_filter, !filter_and.
  apply filter_ext. intros r. apply andb_comm.
Qed.

Lemma Inverted_unsatisfiable (c : FilterCriteria) (r : Row) :
  Inverted c -> ~ Satisfies c r.
Proof.
  intros Hi ((a & _ & Ha) & (h & _ & Hh) & (Hc1 & Hc2) & _).
  destruct Hi as [Hi|[Hi|Hi]]; try lia.
  rewrite (fle_trans _ _ _ Hc1 Hc2) in Hi. discriminate.
Qed.

Lemma show_filtered_text (rows : DataFrame) :
  show_filtered rows = text no_match <-> rows = [].
Proof.
  unfold show_filtered. destruct rows; simpl; split; try reflexivity;
    discriminate.
Qed.

(** X6: the page shows the no-match line exactly when no row of the table
    satisfies the criteria; otherwise it shows the table of the rows that
    do, in their order, restricted to the display columns. *)
Theorem filtered_bestiary_shows (c : FilterCriteria) (df : DataFrame) :
  (filtered_bestiary c df = text no_match <->
   forall r, In r df -> ~ Satisfies c r) /\
  ((exists r, In r df /\ Satisfies c r) ->
   filtered_bestiary c df
   = table (map SHOW_COLS (filter (keeps c) df)) "Filtered Bestiary").
Proof.
  unfold filtered_bestiary. split.
  - rewrite show_filtered_text, df_filt_filter. split.
    + intros E r Hr Hs. apply keeps_spec in Hs.
      assert (Hin : In r (filter (keeps c) df)) by (apply filter_In; auto).
      rewrite E in Hin. destruct Hin.
    + intros H. apply filter_none. intros r Hr.
      destruct (keeps c r) eqn:E; [|reflexivity].
      apply keeps_spec in E. now elim (H r Hr).
  - intros (r & Hr & Hs). rewrite df_filt_filter.
    apply keeps_spec in Hs.
    assert (Hin : In r (filter (keeps c) df)) by (apply filter_In; auto).
    unfold show_filtered.
    destruct (filter (keeps c) df); [destruct Hin | reflexivity].
Qed.

(** X7: with a minimum slider above its maximum slider the page shows the
    no-match line, whatever the table. *)
Theorem inverted_range_no_match (c : FilterCriteria) (df : DataFrame) :
  Inverted c -> filtered_bestiary c df = text no_match.
Proof.
  intros Hi. unfold filtered_bestiary.
  apply show_filtered_text. rewrite df_filt_filter.
  apply filter_none. intros r _.
  destruct (keeps c r) eqn:E; [|reflexivity].
  apply keeps_spec in E. now elim (Inverted_unsatisfiable c r Hi).
Qed.

Lemma inverted_range_no_match_witness :
  Inverted {| min_ac := 12; max_ac := 10; min_hp := 0; max_hp := 100;
              min_cr := zero; max_cr := f_5_0; legendary_only := false |} /\
  filtered_bestiary
    {| min_ac := 12; max_ac := 10; min_hp := 0; max_hp := 100;
       min_cr := zero; max_cr := f_5_0; legendary_only := false |}
    (table_of two_monsters) = text no_match.
Proof.
  assert (H : Inverted
                {| min_ac := 12; max_ac := 10; min_hp := 0; max_hp := 100;
                   min_cr := zero; max_cr := f_5_0;
                   legendary_only := false |}).
  { left. simpl. lia. }
  split; [exact H|].
  apply (inverted_range_no_match _ (table_of two_monsters) H).
Defined.

(* ================================================================== *)
(** * The widgets: when they exist and what they hold *)

Lemma present_nil (col : list (option Z)) :
  Pandas.present col = [] <-> forall x, In x col -> x = None.
Proof.
  induction col as [|[a|] col IH]; simpl.
  - split; [intros _ x [] | reflexivity].
  - split; [discriminate|]. intros H.
    discriminate (H (Some a) (or_introl eq_refl)).
  - rewrite IH. split.
    + intros H x [<-|Hx]; auto.
    + intros H x Hx. apply H. now right.
Qed.

Lemma reduce_none (f : Z -> Z -> Z) (col : list (option Z)) :
  Pandas.reduce f col = None <-> forall x, In x col -> x = None.
Proof.
  rewrite <- present_nil. unfold Pandas.reduce.
  destruct (Pandas.present col); split; try reflexivity; discriminate.
Qed.

Lemma col_all_missing (f : Row -> option Z) (df : DataFrame) :
  (forall x, In x (map f df) -> x = None) <->
  (forall r, In r df -> f r = None).
Proof.
  split.
  - intros H r Hr. apply H. now apply in_map.
  - intros H x Hx. apply in_map_iff in Hx.
    destruct Hx as (r & <- & Hr). now apply H.
Qed.

Lemma fold_min_In (vs : list Z) (v : Z) :
  In (fold_left Z.min vs v) (v :: vs).
Proof.
  revert v. induction vs as [|w vs IH]; intros v; simpl; [now left|].
  destruct (IH (Z.min v w)) as [H|H]; [|now right; right].
  rewrite <- H. destruct (Z.min_spec v w) as [[_ ->]|[_ ->]]; auto.
Qed.

Lemma fold_max_In (vs : list Z) (v : Z) :
  In (fold_left Z.max vs v) (v :: vs).
Proof.
  revert v. induction vs as [|w vs IH]; intros v; simpl; [now left|].
  destruct (IH (Z.max v w)) as [H|H]; [|now right; right].
  rewrite <- H. destruct (Z.max_spec v w) as [[_ ->]|[_ ->]]; auto.
Qed.

(** A bound that exists is the cell of some row, below (above) all the
    others. *)
Lemma min_attained (f : Row -> option Z) (df : DataFrame) (m : Z) :
  Pandas.min (map f df) = Some m ->
  (exists r, In r df /\ f r = Some m) /\
  (forall r a, In r df -> f r = Some a -> m <= a).
Proof.
  unfold Pandas.min, Pandas.reduce. intros H.
  destruct (Pandas.present (map f df)) as [|v vs] eqn:E; [discriminate|].
  injection H as <-. split.
  - pose proof (fold_min_In vs v) as Hin. rewrite <- E in Hin.
    apply present_In, in_map_iff in Hin.
    destruct Hin as (r & Hr & Hin). now exists r.
  - intros r a Hr Ha. apply fold_min_le. rewrite <- E.
    apply present_In. rewrite <- Ha. now apply in_map.
Qed.

Lemma max_attained (f : Row -> option Z) (df : DataFrame) (m : Z) :
  Pandas.max (map f df) = Some m ->
  (exists r, In r df /\ f r = Some m) /\
  (forall r a, In r df -> f r = Some a -> a <= m).
Proof.
  unfold Pandas.max, Pandas.reduce. intros H.
  destruct (Pandas.present (map f df)) as [|v vs] eqn:E; [discriminate|].
  injection H as <-. split.
  - pose proof (fold_max_In vs v) as Hin. rewrite <- E in Hin.
    apply present_In, in_map_iff in Hin.
    destruct Hin as (r & Hr & Hin). now exists r.
  - intros r a Hr Ha. apply fold_max_ge. rewrite <- E.
    apply present_In. rewrite <- Ha. now apply in_map.
Qed.

Lemma min_max_none (col : list (option Z)) :
  Pandas.min col = None <-> Pandas.max col = None.
Proof. unfold Pandas.min, Pandas.max. now rewrite !reduce_none. Qed.

(** X8: the widgets cannot be built exactly when no row has an armor
    class or no row has hit points (an empty table included); the script
    then stops with a [ValueError]. *)
Theorem default_criteria_raises_iff (df : DataFrame) (e : exn) :
  default_criteria df = Raise e <->
  e = ValueError /\
  ((forall r, In r df -> ac (base r) = None) \/
   (forall r, In r df -> hp (base r) = None)).
Proof.
  rewrite <- !(col_all_missing (fun r => ac (base r))).
  rewrite <- !(col_all_missing (fun r => hp (base r))).
  fold (col_ac df) (col_hp df).
  rewrite <- !(reduce_none Z.min).
  fold (Pandas.min (col_ac df)) (Pandas.min (col_hp df)).
  unfold default_criteria.
  destruct (Pandas.min (col_ac df)) as [alo|] eqn:Ea.
  - destruct (Pandas.max (col_ac df)) as [ahi|] eqn:Ea'.
    2:{ apply min_max_none in Ea'. congruence. }
    destruct (Pandas.min (col_hp df)) as [hlo|] eqn:Eh.
    + destruct (Pandas.max (col_hp df)) as [hhi|] eqn:Eh'.
      2:{ apply min_max_none in Eh'. congruence. }
      cbn [py_int bind slider checkbox].
      split; [discriminate|]. intros [_ [H|H]]; discriminate.
    + cbn [py_int bind slider checkbox].
      split; [intros [= <-]; auto | intros [-> _]; reflexivity].
  - cbn [py_int bind].
    split; [intros [= <-]; auto | intros [-> _]; reflexivity].
Qed.

Lemma fold_maximum_not_nan (vs : list float) (v : float) :
  is_nan v = false -> Forall (fun y => is_nan y = false) vs ->
  is_nan (fold_left Pandas.maximum vs v) = false.
Proof.
  revert v. induction vs as [|w vs IH]; simpl; intros v Hv Hvs; [exact Hv|].
  inversion Hvs; subst. apply IH; auto. now apply maximum_not_nan.
Qed.

Lemma fmax_nan_iff (col : list float) :
  is_nan (Pandas.fmax col) = true <-> forall x, In x col -> is_nan x = true.
Proof.
  unfold Pandas.fmax. rewrite <- forallb_forall.
  destruct (forallb is_nan col) eqn:E; [split; reflexivity|].
  split; [|discriminate]. intros H.
  assert (Hall : Forall (fun y => is_nan y = false)
                        (map (fun x => if is_nan x then neg_inf else x) col)).
  { apply Forall_forall. intros y Hy. apply in_map_iff in Hy.
    destruct Hy as (z & <- & _).
    destruct (is_nan z) eqn:Ez; [reflexivity | exact Ez]. }
  destruct (map (fun x => if is_nan x then neg_inf else x) col)
    as [|v vs] eqn:Em.
  - destruct col; [discriminate E | discriminate Em].
  - inversion Hall; subst.
    rewrite fold_maximum_not_nan in H by assumption. discriminate.
Qed.

(** X9: when the widgets exist, each integer bound is the cell of some
    row and bounds every present cell of its column, so each minimum is at
    most its maximum; the challenge-rating range starts at 0.0, its upper
    end bounds every valid [cr_num] and is NaN exactly when no [cr_num] is
    valid; the legendary-only box is unchecked. *)
Theorem default_criteria_bounds (df : DataFrame) (c : FilterCriteria) :
  default_criteria df = Ret c ->
  (exists r, In r df /\ ac (base r) = Some (min_ac c)) /\
  (exists r, In r df /\ ac (base r) = Some (max_ac c)) /\
  (exists r, In r df /\ hp (base r) = Some (min_hp c)) /\
  (exists r, In r df /\ hp (base r) = Some (max_hp c)) /\
  (forall r a, In r df -> ac (base r) = Some a ->
               min_ac c <= a <= max_ac c) /\
  (forall r h, In r df -> hp (base r) = Some h ->
               min_hp c <= h <= max_hp c) /\
  min_ac c <= max_ac c /\ min_hp c <= max_hp c /\
  min_cr c = zero /\
  (forall r, In r df -> is_nan (cr_num r) = false ->
             fle (cr_num r) (max_cr c) = true) /\
  (is_nan (max_cr c) = true <->
   forall r, In r df -> is_nan (cr_num r) = true) /\
  legendary_only c = false.
Proof.
  unfold default_criteria.
  destruct (Pandas.min (col_ac df)) as [alo|] eqn:Ea; [|discriminate].
  destruct (Pandas.max (col_ac df)) as [ahi|] eqn:Ea'; [|discriminate].
  destruct (Pandas.min (col_hp df)) as [hlo|] eqn:Eh; [|discriminate].
  destruct (Pandas.max (col_hp df)) as [hhi|] eqn:Eh'; [|discriminate].
  cbn [py_int bind slider checkbox]. intros [= <-].
  cbn [min_ac max_ac min_hp max_hp min_cr max_cr legendary_only].
  destruct (min_attained _ _ _ Ea) as [(r1 & Hr1 & E1) L1].
  destruct (max_attained _ _ _ Ea') as [(r2 & Hr2 & E2) U1].
  destruct (min_attained _ _ _ Eh) as [(r3 & Hr3 & E3) L2].
  destruct (max_attained _ _ _ Eh') as [(r4 & Hr4 & E4) U2].
  split; [now exists r1|]. split; [now exists r2|].
  split; [now exists r3|]. split; [now exists r4|].
  split; [intros r a Hr Hra; split; eauto|].
  split; [intros r h Hr Hrh; split; eauto|].
  split; [exact (L1 r2 ahi Hr2 E2)|].
  split; [exact (L2 r4 hhi Hr4 E4)|].
  split; [reflexivity|].
  split.
  - intros r Hr Hn. apply fmax_upper_bound; [|exact Hn].
    exact (in_map cr_num df r Hr).
  - split; [|reflexivity].
    split.
    + intros H r Hr.
      apply (proj1 (fmax_nan_iff (col_cr_num df)) H).
      exact (in_map cr_num df r Hr).
    + intros H. apply (proj2 (fmax_nan_iff (col_cr_num df))).
      intros x Hx. apply in_map_iff in Hx.
      destruct Hx as (r & <- & Hr). now apply H.
Qed.

Lemma default_criteria_bounds_witness :
  default_criteria (table_of two_monsters) = Ret two_monsters_defaults /\
  min_ac two_monsters_defaults <= max_ac two_monsters_defaults /\
  min_hp two_monsters_defaults <= max_hp two_monsters_defaults.
Proof.
  split; [vm_compute; reflexivity|].
  assert (H : default_criteria (table_of two_monsters)
              = Ret two_monsters_defaults) by (vm_compute; reflexivity).
  pose proof (default_criteria_bounds _ _ H) as B.
  split; [apply B | apply B].
Defined.

(* ================================================================== *)
(** * Chapter III and Chapter V *)

Lemma notna_str_spec (x : option string) :
  Frame.notna_str x = true <-> x <> None.
Proof. destruct x; simpl; split; congruence. Qed.

Lemma alig_df_In (df : DataFrame) (r : Row) :
  In r (alig_df df) <->
  In r df /\ align (base r) <> None /\ is_nan (cr_num r) = false.
Proof.
  unfold alig_df, Frame.dropna_subset. rewrite filter_In.
  cbn [forallb]. rewrite andb_true_r, andb_true_iff, notna_str_spec.
  rewrite negb_true_iff. tauto.
Qed.

(** X10: the rows charted by alignment are the rows of the derived table
    that have an alignment and whose challenge rating the parser turned
    into a number that is not NaN; a row whose rating was unparseable (the
    parser returned the missing value) is left out. *)
Theorem alig_df_parsed (df : list MonsterRecord) (rows : DataFrame) :
  derive df = Ret rows ->
  forall r,
    In r (alig_df rows) <->
    In r rows /\ align (base r) <> None /\
    exists x, parse_cr (cr (base r)) = Ret (Some x) /\ is_nan x = false.
Proof.
  intros Hd r. rewrite alig_df_In. split.
  - intros (Hr & Ha & Hn). split; [exact Hr|]. split; [exact Ha|].
    destruct (derive_cr_num df rows Hd r Hr) as (v & Hv & Ec).
    destruct v as [x|]; simpl in Ec.
    + exists x. split; [exact Hv | now rewrite <- Ec].
    + rewrite Ec in Hn. discriminate.
  - intros (Hr & Ha & x & Hx & Hn). split; [exact Hr|]. split; [exact Ha|].
    destruct (derive_cr_num df rows Hd r Hr) as (v & Hv & Ec).
    rewrite Hx in Hv. injection Hv as <-. now rewrite Ec.
Qed.

Lemma alig_df_parsed_witness :
  derive alignments = Ret (table_of alignments) /\
  map (fun r => cr (base r)) (alig_df (table_of alignments))
  = [PyStr "1/4"] /\
  forall r,
    In r (alig_df (table_of alignments)) <->
    In r (table_of alignments) /\ align (base r) <> None /\
    exists x, parse_cr (cr (base r)) = Ret (Some x) /\ is_nan x = false.
Proof.
  split; [vm_compute; reflexivity|].
  split; [vm_compute; reflexivity|].
  apply (alig_df_parsed alignments). vm_compute. reflexivity.
Defined.

Lemma combine_map_In {A B : Type} (f : A -> B) (l : list A) (x : A) (y : B) :
  In (x, y) (combine l (map f l)) <-> In x l /\ y = f x.
Proof.
  induction l as [|a l IH]; simpl; [tauto|].
  rewrite IH. split.
  - intros [[= <- <-]|[H1 H2]]; auto.
  - intros [[<-|H1] ->]; auto.
Qed.

Lemma combine_map_fst {A B : Type} (f : A -> B) (l : list A) :
  map fst (combine l (map f l)) = l.
Proof. induction l as [|a l IH]; simpl; [reflexivity | now rewrite IH]. Qed.

(** X11: the comparison of Chapter V keeps every row of the table, in
    order, and gives each a category that is never missing: it is
    ["Legendary"] exactly for the rows the legendary-only filter accepts,
    and ["Common"] exactly for the rows whose legendary field is missing
    or is ["Common"] itself; so every row that a legendary-only filter
    returns is in the ["Legendary"] box. *)
Theorem leg_df_category (df : DataFrame) :
  map fst (leg_df df) = df /\
  (forall r cat, In (r, cat) (leg_df df) ->
     cat <> None /\
     (cat = Some "Legendary"%string <-> is_legendary r = true) /\
     (cat = Some "Common"%string <->
      legendary (base r) = None \/
      legendary (base r) = Some "Common"%string)) /\
  (forall c r, legendary_only c = true -> In r (df_filt c df) ->
     In (r, Some "Legendary"%string) (leg_df df)).
Proof.
  unfold leg_df, col_legendary. rewrite map_map.
  split; [apply (combine_map_fst
                   (fun r => Frame.fillna "Common" (legendary (base r))))|].
  split.
  - intros r cat H.
    apply (combine_map_In
             (fun r => Frame.fillna "Common" (legendary (base r)))) in H.
    destruct H as [_ ->]. unfold is_legendary.
    rewrite eq_cell_spec.
    destruct (legendary (base r)) as [s|]; simpl.
    + split; [discriminate|]. split; [reflexivity|].
      split; [auto | intros [H|H]; [discriminate | exact H]].
    + split; [discriminate|]. split; [split; discriminate|].
      split; auto.
  - intros c r Hf Hr. apply df_filt_In in Hr.
    destruct Hr as (Hr & _ & _ & _ & Hl).
    apply (combine_map_In
             (fun r => Frame.fillna "Common" (legendary (base r)))).
    split; [exact Hr|]. now rewrite (Hl Hf).
Qed.

(* ================================================================== *)
(** * Grouping and counting *)

Lemma stable_sort_sorted {A : Type} (before : A -> A -> bool) (l : list A) :
  (forall x y, before x y = true \/ before y x = true) ->
  (forall x y z, before x y = true -> before y z = true ->
                 before x z = true) ->
  StronglySorted (fun x y => before x y = true)
                 (Pandas.stable_sort before l).
Proof.
  intros Htot Htrans.
  assert (Hins : forall x s,
             StronglySorted (fun x y => before x y = true) s ->
             StronglySorted (fun x y => before x y = true)
                            (Pandas.insert before x s)).
  { intros x s. induction s as [|y s IH]; simpl; intros Hs.
    - constructor; constructor.
    - inversion Hs as [|? ? Hs' Hy]; subst.
      destruct (before x y) eqn:E.
      + constructor; [exact Hs|]. constructor; [exact E|].
        rewrite Forall_forall in *. intros z Hz. eauto.
      + constructor; [now apply IH|].
        apply Forall_forall. intros z Hz.
        apply (Permutation_in _ (insert_perm before x s)) in Hz.
        destruct Hz as [<-|Hz].
        * destruct (Htot x y) as [H|H]; [congruence | exact H].
        * rewrite Forall_forall in Hy. now apply Hy. }
  induction l as [|x l IH]; simpl; [constructor | now apply Hins].
Qed.

Lemma StronglySorted_app_inv {A : Type} (R : A -> A -> Prop)
      (l1 l2 : list A) :
  StronglySorted R (l1 ++ l2) ->
  forall x y, In x l1 -> In y l2 -> R x y.
Proof.
  induction l1 as [|a l1 IH]; simpl; intros Hs x y Hx Hy; [destruct Hx|].
  inversion Hs as [|? ? Hs' Ha]; subst.
  destruct Hx as [<-|Hx]; [|now apply IH].
  rewrite Forall_forall in Ha. apply Ha. apply in_or_app. now right.
Qed.

Lemma count_descending_sorted (t : list (string * nat)) :
  StronglySorted (fun x y => (snd y <= snd x)%nat) (Frame.sort_by_count t).
Proof.
  unfold Frame.sort_by_count.
  eapply StronglySorted_ind with
    (P := fun l => StronglySorted (fun x y => (snd y <= snd x)%nat) l).
  3:{ apply (stable_sort_sorted (fun x y => (snd y <=? snd x)%nat)).
      - intros x y. rewrite !Nat.leb_le. lia.
      - intros x y z. rewrite !Nat.leb_le. lia. }
  - constructor.
  - intros a l _ IH Ha. constructor; [exact IH|].
    eapply Forall_impl; [|exact Ha]. intros b Hb. now apply Nat.leb_le.
Qed.

Lemma unique_In (l : list string) (x : string) :
  In x (Frame.unique l) <-> In x l.
Proof.
  unfold Frame.unique. now rewrite <- in_rev, nodup_In, <- in_rev.
Qed.

Lemma unique_NoDup (l : list string) : NoDup (Frame.unique l).
Proof. unfold Frame.unique. apply NoDup_rev, NoDup_nodup. Qed.

Lemma list_sum_perm (l l' : list nat) :
  Permutation l l' -> list_sum l = list_sum l'.
Proof. induction 1; simpl; lia. Qed.

Lemma list_sum_map_add {A : Type} (f g : A -> nat) (l : list A) :
  list_sum (map (fun x => f x + g x)%nat l)
  = (list_sum (map f l) + list_sum (map g l))%nat.
Proof. induction l as [|a l IH]; simpl; lia. Qed.

Lemma list_sum_zero {A : Type} (f : A -> nat) (l : list A) :
  (forall x, In x l -> f x = 0%nat) -> list_sum (map f l) = 0%nat.
Proof.
  induction l as [|a l IH]; simpl; intros H; [reflexivity|].
  rewrite (H a (or_introl eq_refl)), IH; auto.
Qed.

(** In a list without duplicates exactly one entry equals a member. *)
Lemma indicator_sum (ks : list string) (s : string) :
  NoDup ks ->
  list_sum (map (fun k => if String.eqb s k then 1 else 0)%nat ks)
  = if in_dec string_dec s ks then 1%nat else 0%nat.
Proof.
  induction 1 as [|k ks Hk _ IH]; simpl; [reflexivity|].
  rewrite IH. destruct (String.eqb_spec s k) as [->|Hne].
  - destruct (string_dec k k) as [Hkk|Hkk]; [|now elim Hkk].
    destruct (in_dec string_dec k ks); [now elim Hk | reflexivity].
  - destruct (string_dec k s) as [E|E]; [now elim Hne|].
    destruct (in_dec string_dec s ks); reflexivity.
Qed.

Section GroupFacts.
Context {A : Type} (key : A -> option string) (counted : A -> bool).

Lemma has_key_spec (k : string) (r : A) :
Frame.has_key key k r = true <-> key r = Some k.
Proof.
unfold Frame.has_key. destruct (key r) as [s|].
- rewrite String.eqb_eq. split; [now intros -> | now intros [= ->]].
- split; discriminate.
Qed.

Lemma present_keys_In (rows : list A) (k : string) :
In k (Frame.present_keys key rows) <-> exists r, In r rows /\ key r = Some k.
Proof.
induction rows as [|r rows IH]; simpl.
- split; [intros [] | intros (r & [] & _)].
- destruct (key r) as [s|] eqn:E; simpl; rewrite IH; split.
  + intros [<-|(r' & Hr & Hk)]; [exists r | exists r']; auto.
  + intros (r' & [<-|Hr] & Hk); [left; congruence | right; eauto].
  + intros (r' & Hr & Hk). eauto.
  + intros (r' & [<-|Hr] & Hk); [congruence | eauto].
Qed.

Lemma group_keys_perm (rows : list A) :
Permutation (Frame.group_keys key rows)
            (Frame.unique (Frame.present_keys key rows)).
Proof. apply stable_sort_perm. Qed.

Lemma group_keys_In (rows : list A) (k : string) :
In k (Frame.group_keys key rows) <-> exists r, In r rows /\ key r = Some k.
Proof.
rewrite <- present_keys_In.
rewrite <- (unique_In (Frame.present_keys key rows)). split.
- apply Permutation_in, group_keys_perm.
- apply Permutation_in, Permutation_sym, group_keys_perm.
Qed.

Lemma group_keys_NoDup (rows : list A) : NoDup (Frame.group_keys key rows).
Proof.
eapply Permutation_NoDup; [apply Permutation_sym, group_keys_perm|].
apply unique_NoDup.
Qed.

(** Over distinct keys that cover the table, the group counts add up to
  the counted rows that have a key. *)
Lemma group_count_sum (ks : list string) (rows : list A) :
NoDup ks ->
(forall r k, In r rows -> counted r = true -> key r = Some k -> In k ks) ->
list_sum (map (Frame.group_count key counted rows) ks)
= List.length
    (filter (fun r => match key r with Some _ => true | None => false end
                      && counted r) rows).
Proof.
intros Hnd. induction rows as [|r rows IH]; intros Hcov.
- unfold Frame.group_count. simpl. now apply list_sum_zero.
- assert (E : forall k,
             Frame.group_count key counted (r :: rows) k
             = ((if Frame.has_key key k r && counted r then 1 else 0)
                + Frame.group_count key counted rows k)%nat).
  { intros k. unfold Frame.group_count. simpl.
    destruct (Frame.has_key key k r && counted r); reflexivity. }
  rewrite (map_ext _ _ E), list_sum_map_add.
  rewrite IH
    by (intros r' k Hr' Hc Hk; apply (Hcov r' k); [now right|auto|auto]).
  simpl. unfold Frame.has_key.
  destruct (key r) as [s|] eqn:Ek; simpl.
  + destruct (counted r) eqn:Ec; simpl.
    * rewrite (map_ext _ (fun k => if String.eqb s k then 1 else 0)%nat)
        by (intros k; now rewrite andb_true_r).
      rewrite indicator_sum by exact Hnd.
      destruct (in_dec string_dec s ks) as [Hi|Hn]; [reflexivity|].
      elim Hn. apply (Hcov r s); [now left | exact Ec | exact Ek].
    * rewrite list_sum_zero; [reflexivity|].
      intros k _. now rewrite andb_false_r.
  + rewrite list_sum_zero; [reflexivity|]. reflexivity.
Qed.

Lemma groupby_count_sum (rows : list A) :
list_sum (map snd (Frame.groupby_count key counted rows))
= List.length
    (filter (fun r => match key r with Some _ => true | None => false end
                      && counted r) rows).
Proof.
unfold Frame.groupby_count. rewrite map_map. cbn [snd].
apply group_count_sum; [apply group_keys_NoDup|].
intros r k Hr _ Hk. apply group_keys_In. eauto.
Qed.

Lemma groupby_count_In (rows : list A) (k : string) (n : nat) :
In (k, n) (Frame.groupby_count key counted rows) <->
(exists r, In r rows /\ key r = Some k) /\
n = Frame.group_count key counted rows k.
Proof.
unfold Frame.groupby_count. rewrite in_map_iff, <- group_keys_In. split.
- intros (k' & [= <- <-] & Hk). auto.
- intros [Hk ->]. exists k. auto.
Qed.
End GroupFacts.

(* ================================================================== *)
(** * Chapter IV: the sourcebooks *)

Lemma src_perm (df : DataFrame) :
  Permutation (src df) (Frame.groupby_count filled_source has_name df).
Proof. apply stable_sort_perm. Qed.

(** X12: the counts of the source chart add up to the number of records
    whose name is present: records without a source are counted under
    ["Unknown"], records without a name are counted nowhere. *)
Theorem src_total (df : DataFrame) :
  list_sum (map snd (src df)) = List.length (filter has_name df).
Proof.
  rewrite (list_sum_perm _ _ (Permutation_map snd (src_perm df))).
  rewrite groupby_count_sum. f_equal. apply filter_ext.
  intros r. unfold filled_source, Frame.fillna.
  now destruct (source (base r)).
Qed.

(** X13: the source chart has one entry per distinct source of the table,
    with ["Unknown"] standing for a missing source; the count of an entry
    is the number of records of that source whose name is present, and the
    entries come in descending order of count. *)
Theorem src_entries (df : DataFrame) :
  NoDup (map fst (src df)) /\
  (forall k n,
      In (k, n) (src df) <->
      (exists r, In r df /\ filled_source r = Some k) /\
      n = List.length
            (filter (fun r => Frame.has_key filled_source k r && has_name r)
                    df)) /\
  StronglySorted (fun x y => (snd y <= snd x)%nat) (src df).
Proof.
  split; [|split].
  - eapply Permutation_NoDup.
    + apply Permutation_sym, Permutation_map, src_perm.
    + unfold Frame.groupby_count. rewrite map_map. cbn [fst].
      rewrite map_id. apply group_keys_NoDup.
  - intros k n. split.
    + intros H. apply (Permutation_in _ (src_perm df)) in H.
      apply groupby_count_In in H. exact H.
    + intros H. apply (Permutation_in _ (Permutation_sym (src_perm df))).
      apply groupby_count_In. exact H.
  - apply count_descending_sorted.
Qed.

(* ================================================================== *)
(** * The rankings rank *)

Lemma filter_partition_perm {A : Type} (p : A -> bool) (l : list A) :
  Permutation (filter p l ++ filter (fun x => negb (p x)) l) l.
Proof.
  induction l as [|x l IH]; simpl; [constructor|].
  destruct (p x); simpl.
  - now constructor.
  - apply Permutation_sym, Permutation_cons_app. now apply Permutation_sym.
Qed.

Lemma skipn_subset {B : Type} (n : nat) (l : list B) (x : B) :
  In x (skipn n l) -> In x l.
Proof.
  intros H. rewrite <- (firstn_skipn n l). apply in_or_app. now right.
Qed.

Section SelectFacts.
Context {A : Type} (key : A -> option Z).

Lemma nan_rows_missing (rows : list A) (r : A) :
In r (Pandas.nan_rows key rows) -> key r = None.
Proof.
unfold Pandas.nan_rows. rewrite filter_In. unfold Pandas.notna.
intros [_ H]. destruct (key r); [discriminate | reflexivity].
Qed.

Lemma ranked_perm (before : A -> A -> bool) (rows : list A) :
Permutation (Pandas.stable_sort before (Pandas.dropna key rows)
             ++ Pandas.nan_rows key rows) rows.
Proof.
etransitivity; [|apply (filter_partition_perm (Pandas.notna key))].
apply Permutation_app_tail, stable_sort_perm.
Qed.

(** The first [n] rows of a ranking against the rest: a row left out
  that has a key is ranked after every row taken, and every row taken
  then has a key too. *)
Lemma ranked_split (before : A -> A -> bool) (n : nat) (rows : list A) :
(forall x y, before x y = true \/ before y x = true) ->
(forall x y z, before x y = true -> before y z = true ->
               before x z = true) ->
let L := Pandas.stable_sort before (Pandas.dropna key rows)
         ++ Pandas.nan_rows key rows in
Permutation (firstn n L ++ skipn n L) rows /\
forall x y, In x (firstn n L) -> In y (skipn n L) -> key y <> None ->
            key x <> None /\ before x y = true.
Proof.
intros Htot Htrans L. split.
- rewrite firstn_skipn. apply ranked_perm.
- intros x y Hx Hy Hk. unfold L in Hx, Hy.
  set (S := Pandas.stable_sort before (Pandas.dropna key rows)) in *.
  rewrite skipn_app in Hy. apply in_app_or in Hy.
  destruct Hy as [Hy|Hy].
  2:{ apply skipn_subset, nan_rows_missing in Hy. now elim Hk. }
  assert (Hlen : (n < List.length S)%nat).
  { destruct (Nat.lt_ge_cases n (List.length S)) as [H|H]; [exact H|].
    rewrite skipn_all2 in Hy by exact H. destruct Hy. }
  rewrite firstn_app in Hx.
  replace (n - List.length S)%nat with 0%nat in Hx by lia.
  rewrite firstn_O, app_nil_r in Hx.
  split.
  + apply (dropna_present key rows).
    apply (Permutation_in _ (stable_sort_perm before _)).
    now apply (firstn_subset n).
  + pose proof (stable_sort_sorted before (Pandas.dropna key rows)
                                   Htot Htrans) as Hs.
    fold S in Hs. rewrite <- (firstn_skipn n S) in Hs.
    exact (StronglySorted_app_inv _ _ _ Hs x y Hx Hy).
Qed.

Lemma selectn_length (before : A -> A -> bool) (n : nat) (rows : list A) :
List.length
  (firstn n (Pandas.stable_sort before (Pandas.dropna key rows)
             ++ Pandas.nan_rows key rows))
= Nat.min n (List.length rows).
Proof.
rewrite length_firstn.
now rewrite (Permutation_length (ranked_perm before rows)).
Qed.
End SelectFacts.

(** X14: each ranking lists ten records, or the whole table when it has
    fewer than ten rows: records without a survivability are used to fill
    it up. *)
Theorem rankings_length (df : DataFrame) :
  List.length (top10 df) = Nat.min 10 (List.length df) /\
  List.length (bot10 df) = Nat.min 10 (List.length df).
Proof.
  unfold top10, bot10, Pandas.nlargest, Pandas.nsmallest.
  rewrite !length_map. split; apply selectn_length.
Qed.

(** X15: the top ranking takes rows of the table and leaves the others:
    no row left out has a survivability above that of a row taken, and a
    row without a survivability is taken only when every row that has one
    is taken. *)
Theorem top10_ranks (df : DataFrame) :
  exists top rest,
    top10 df = map show_cols top /\
    Permutation (top ++ rest) df /\
    forall x y, In x top -> In y rest ->
      forall vy, survivability y = Some vy ->
        exists vx, survivability x = Some vx /\ vy <= vx.
Proof.
  destruct (ranked_split survivability (Pandas.descending survivability)
                         10 df) as [Hp Hr].
  { intros x y. unfold Pandas.descending. rewrite !Z.leb_le. lia. }
  { intros x y z. unfold Pandas.descending. rewrite !Z.leb_le. lia. }
  eexists. eexists. split; [reflexivity|]. split; [exact Hp|].
  intros x y Hx Hy vy Ey.
  destruct (Hr x y Hx Hy) as [Hkx Hb]; [congruence|].
  unfold Pandas.descending, Pandas.value in Hb. rewrite Ey in Hb.
  destruct (survivability x) as [vx|]; [|now elim Hkx].
  exists vx. split; [reflexivity | now apply Z.leb_le].
Qed.

(** X16: the bottom ranking takes rows of the table and leaves the
    others: no row left out has a survivability below that of a row
    taken, and a row without a survivability is taken only when every row
    that has one is taken. *)
Theorem bot10_ranks (df : DataFrame) :
  exists bottom rest,
    bot10 df = map show_cols bottom /\
    Permutation (bottom ++ rest) df /\
    forall x y, In x bottom -> In y rest ->
      forall vy, survivability y = Some vy ->
        exists vx, survivability x = Some vx /\ vx <= vy.
Proof.
  destruct (ranked_split survivability (Pandas.ascending survivability)
                         10 df) as [Hp Hr].
  { intros x y. unfold Pandas.ascending. rewrite !Z.leb_le. lia. }
  { intros x y z. unfold Pandas.ascending. rewrite !Z.leb_le. lia. }
  eexists. eexists. split; [reflexivity|]. split; [exact Hp|].
  intros x y Hx Hy vy Ey.
  destruct (Hr x y Hx Hy) as [Hkx Hb]; [congruence|].
  unfold Pandas.ascending, Pandas.value in Hb. rewrite Ey in Hb.
  destruct (survivability x) as [vx|]; [|now elim Hkx].
  exists vx. split; [reflexivity | now apply Z.leb_le].
Qed.

(* ================================================================== *)
(** * Chapter VI: the most frequent types *)

Lemma NoDup_firstn {B : Type} (n : nat) (l : list B) :
  NoDup l -> NoDup (firstn n l).
Proof.
  intros H. rewrite <- (firstn_skipn n l) in H.
  now apply NoDup_app_remove_r in H.
Qed.

(** The series that [nlargest] cuts: the types with their counts, the
    most frequent first. *)
Lemma top10_types_ranked (df : DataFrame) :
  exists L,
    top10_types df = map fst (firstn 10 L) /\
    Permutation L (map (fun k => (k, type_count df k))
                       (Frame.unique (Frame.present_keys row_type df))) /\
    StronglySorted (fun x y => (snd y <= snd x)%nat) L.
Proof.
  exists (Pandas.stable_sort (Pandas.descending by_count)
                             (Frame.value_counts row_type df)).
  split; [|split].
  - unfold top10_types, Pandas.nlargest.
    destruct (dropna_all by_count (Frame.value_counts row_type df))
      as [-> ->]; [discriminate|].
    now rewrite app_nil_r.
  - etransitivity; [apply stable_sort_perm|]. apply stable_sort_perm.
  - eapply StronglySorted_ind with
      (P := fun l => StronglySorted (fun x y => (snd y <= snd x)%nat) l).
    3:{ apply (stable_sort_sorted (Pandas.descending by_count)).
        - intros x y. unfold Pandas.descending. rewrite !Z.leb_le. lia.
        - intros x y z. unfold Pandas.descending. rewrite !Z.leb_le. lia. }
    + constructor.
    + intros a l _ IH Ha. constructor; [exact IH|].
      eapply Forall_impl; [|exact Ha]. intros b Hb.
      unfold Pandas.descending, Pandas.value, by_count in Hb.
      apply Z.leb_le in Hb. lia.
Qed.

Lemma counted_types_In (df : DataFrame) (t : string) (n : nat) :
  In (t, n) (map (fun k => (k, type_count df k))
                 (Frame.unique (Frame.present_keys row_type df))) <->
  (exists r, In r df /\ row_type r = Some t) /\ n = type_count df t.
Proof.
  rewrite in_map_iff. split.
  - intros (k & [= <- <-] & Hk).
    apply unique_In, present_keys_In in Hk. auto.
  - intros [Hk ->]. exists t. split; [reflexivity|].
    now apply unique_In, present_keys_In.
Qed.

Lemma counted_types_fst (df : DataFrame) :
  map fst (map (fun k => (k, type_count df k))
               (Frame.unique (Frame.present_keys row_type df)))
  = Frame.unique (Frame.present_keys row_type df).
Proof. rewrite map_map. cbn [fst]. apply map_id. Qed.

(** X17: the chart of Chapter VI is about at most ten types, all
    different, each the type of some row; and a type of the table that is
    left out has no more rows than any type that is kept. *)
Theorem top10_types_most_frequent (df : DataFrame) :
  (List.length (top10_types df) <= 10)%nat /\
  NoDup (top10_types df) /\
  (forall t, In t (top10_types df) ->
             exists r, In r df /\ type (base r) = Some t) /\
  (forall t t' r',
      In t (top10_types df) ->
      In r' df -> type (base r') = Some t' -> ~ In t' (top10_types df) ->
      (type_count df t' <= type_count df t)%nat).
Proof.
  destruct (top10_types_ranked df) as (L & -> & Hp & Hs).
  assert (Hin : forall t n, In (t, n) L <->
                  (exists r, In r df /\ row_type r = Some t) /\
                  n = type_count df t).
  { intros t n. rewrite <- counted_types_In. split.
    - apply Permutation_in, Hp.
    - apply Permutation_in, Permutation_sym, Hp. }
  split; [|split; [|split]].
  - rewrite length_map, length_firstn. lia.
  - rewrite <- firstn_map. apply NoDup_firstn.
    eapply Permutation_NoDup; [apply Permutation_sym, Permutation_map, Hp|].
    rewrite counted_types_fst. apply unique_NoDup.
  - intros t Ht. apply in_map_iff in Ht. destruct Ht as ([t0 n] & <- & Ht).
    apply firstn_subset, Hin in Ht. tauto.
  - intros t t' r' Ht Hr' Et' Hout.
    apply in_map_iff in Ht. destruct Ht as ([t0 n] & <- & Ht).
    cbn [fst] in *.
    assert (Hn : n = type_count df t0).
    { apply firstn_subset, Hin in Ht. tauto. }
    assert (H' : In (t', type_count df t') L).
    { apply Hin. split; [exists r'; auto | reflexivity]. }
    rewrite <- (firstn_skipn 10 L) in H', Hs.
    apply in_app_or in H'. destruct H' as [H'|H'].
    + elim Hout. apply in_map_iff. exists (t', type_count df t'). auto.
    + pose proof (StronglySorted_app_inv _ _ _ Hs _ _ Ht H') as Hle.
      cbn [snd] in Hle. lia.
Qed.

Lemma of_top_types_filter (df : DataFrame) :
  of_top_types df = filter (Frame.isin row_type (top10_types df)) df.
Proof. apply select_map. Qed.

Lemma isin_spec (values : list string) (r : Row) :
  Frame.isin row_type values r = true <->
  exists t, row_type r = Some t /\ In t values.
Proof.
  unfold Frame.isin. destruct (row_type r) as [s|].
  - rewrite existsb_exists. split.
    + intros (x & Hx & E). apply String.eqb_eq in E. subst. eauto.
    + intros (t & [= <-] & Ht). exists s. split; [exact Ht|].
      apply String.eqb_refl.
  - split; [discriminate | intros (t & [=] & _)].
Qed.

(** X18: with at most ten distinct types in the table, the restriction to
    the most frequent types drops only the rows that have no type. *)
Theorem of_top_types_all (df : DataFrame) :
  (List.length (Frame.unique (Frame.present_keys row_type df)) <= 10)%nat ->
  of_top_types df = filter (fun r => Frame.notna_str (row_type r)) df.
Proof.
  intros Hlen. rewrite of_top_types_filter.
  destruct (top10_types_ranked df) as (L & E & Hp & _).
  assert (HL : firstn 10 L = L).
  { apply firstn_all2. rewrite (Permutation_length Hp), length_map. exact Hlen. }
  rewrite E, HL. apply filter_ext_in. intros r Hr.
  destruct (row_type r) as [t|] eqn:Et.
  - cbn [Frame.notna_str]. apply isin_spec. exists t. split; [exact Et|].
    apply in_map_iff. exists (t, type_count df t). split; [reflexivity|].
    apply (Permutation_in _ (Permutation_sym Hp)).
    apply counted_types_In. split; [eauto | reflexivity].
  - unfold Frame.isin. now rewrite Et.
Qed.

Lemma of_top_types_all_witness :
  (List.length
     (Frame.unique (Frame.present_keys row_type (table_of menagerie)))
   <= 10)%nat /\
  of_top_types (table_of menagerie)
  = filter (fun r => Frame.notna_str (row_type r)) (table_of menagerie).
Proof.
  assert (H : (List.length
                 (Frame.unique
                    (Frame.present_keys row_type (table_of menagerie)))
               <= 10)%nat).
  { apply Nat.leb_le. vm_compute. reflexivity. }
  split; [exact H|].
  apply (of_top_types_all (table_of menagerie) H).
Defined.

(* ================================================================== *)
(** * Chapter VI: the table of sizes and types *)

Lemma of_top_types_In (df : DataFrame) (r : Row) :
  In r (of_top_types df) <->
  In r df /\ exists t, row_type r = Some t /\ In t (top10_types df).
Proof. now rewrite of_top_types_filter, filter_In, isin_spec. Qed.

(** The rows that enter the groups of sizes and types. *)
Lemma grouped_In (df : DataFrame) (r : Row) :
  In r (filter (fun r => Frame.notna_str (row_size r)
                         && Frame.notna_str (row_type r))
               (of_top_types df)) <->
  In r df /\ row_size r <> None /\
  exists t, row_type r = Some t /\ In t (top10_types df).
Proof.
  rewrite filter_In, of_top_types_In, andb_true_iff, !notna_str_spec.
  split.
  - intros ((Hr & Ht) & Hs & _). auto.
  - intros (Hr & Hs & t & Et & Ht). repeat split; eauto. congruence.
Qed.

Lemma freq_columns_In (df : DataFrame) (t : string) :
  In t (columns (freq df)) <->
  In t (top10_types df) /\
  exists r, In r df /\ row_type r = Some t /\ row_size r <> None.
Proof.
  unfold freq. cbn [columns]. rewrite group_keys_In. split.
  - intros (r & Hr & Et). apply grouped_In in Hr.
    destruct Hr as (Hr & Hs & t' & Et' & Ht').
    assert (t' = t) by congruence. subst.
    split; [exact Ht'|]. exists r. auto.
  - intros (Ht & r & Hr & Et & Hs). exists r. split; [|exact Et].
    apply grouped_In. split; [exact Hr|]. split; [exact Hs|].
    exists t. auto.
Qed.

Lemma freq_index_In (df : DataFrame) (s : string) :
  In s (index (freq df)) <->
  exists r t, In r df /\ row_size r = Some s /\
              row_type r = Some t /\ In t (top10_types df).
Proof.
  unfold freq. cbn [index]. rewrite group_keys_In. split.
  - intros (r & Hr & Es). apply grouped_In in Hr.
    destruct Hr as (Hr & _ & t & Et & Ht). exists r, t. auto.
  - intros (r & t & Hr & Es & Et & Ht). exists r. split; [|exact Es].
    apply grouped_In. split; [exact Hr|]. split; [congruence | eauto].
Qed.

(** X19: each cell of the table of sizes and types is the number of
    records of the whole data set that have that size, that type and a
    name (restricting to the most frequent types changes no count shown);
    its columns are the most frequent types that occur with a size, its
    lines the sizes that occur with one of those types, each once. *)
Theorem freq_cells (df : DataFrame) :
  cells (freq df)
  = map (fun s =>
           map (fun t =>
                  List.length
                    (filter (fun r => Frame.has_key row_size s r
                                      && Frame.has_key row_type t r
                                      && has_name r) df))
               (columns (freq df)))
        (index (freq df)) /\
  (forall t, In t (columns (freq df)) <->
             In t (top10_types df) /\
             exists r, In r df /\ row_type r = Some t /\ row_size r <> None) /\
  (forall s, In s (index (freq df)) <->
             exists r t, In r df /\ row_size r = Some s /\
                         row_type r = Some t /\ In t (top10_types df)) /\
  NoDup (columns (freq df)) /\ NoDup (index (freq df)).
Proof.
  split; [|split; [apply freq_columns_In|split; [apply freq_index_In|]]].
  - unfold freq at 1. cbn [cells].
    apply map_ext. intros s. apply map_ext_in. intros t Ht.
    apply freq_columns_In in Ht. destruct Ht as [Ht _].
    unfold pair_count. rewrite of_top_types_filter, filter_and.
    f_equal. apply filter_ext. intros r.
    destruct (Frame.has_key row_type t r) eqn:Ek.
    + assert (Hi : Frame.isin row_type (top10_types df) r = true).
      { apply isin_spec. exists t. split; [|exact Ht].
        now apply (has_key_spec row_type). }
      now rewrite Hi.
    + now rewrite andb_false_r, andb_false_r.
  - unfold freq. cbn [columns index]. split; apply group_keys_NoDup.
Qed.

Lemma pair_count_group (rows : DataFrame) (s t : string) :
  pair_count rows s t
  = Frame.group_count row_type
      (fun r => Frame.has_key row_size s r && has_name r) rows t.
Proof.
  unfold pair_count, Frame.group_count. f_equal. apply filter_ext.
  intros r.
  destruct (Frame.has_key row_size s r), (Frame.has_key row_type t r),
    (has_name r); reflexivity.
Qed.

(** X20: the cells of the table of sizes and types add up to the number
    of records of the most frequent types that have a size and a name:
    a record without a size or without a name is in no cell. *)
Theorem freq_total (df : DataFrame) :
  total (freq df)
  = List.length
      (filter (fun r => Frame.notna_str (row_size r) && has_name r)
              (of_top_types df)).
Proof.
  unfold total, freq. cbn [cells].
  set (rows := of_top_types df).
  set (grouped := filter (fun r => Frame.notna_str (row_size r)
                                   && Frame.notna_str (row_type r)) rows).
  rewrite map_map.
  assert (Hg : forall r, In r rows -> row_size r <> None ->
                         row_type r <> None -> In r grouped).
  { intros r Hr Hs Ht. apply filter_In. split; [exact Hr|].
    apply andb_true_iff. now rewrite !notna_str_spec. }
  assert (Hinner : forall s,
             list_sum (map (fun t => pair_count rows s t)
                           (Frame.group_keys row_type grouped))
             = Frame.group_count row_size
                 (fun r => Frame.notna_str (row_type r) && has_name r)
                 rows s).
  { intros s.
    rewrite (map_ext _ _ (pair_count_group rows s)).
    rewrite (group_count_sum row_type).
    - unfold Frame.group_count. f_equal. apply filter_ext. intros r.
      unfold Frame.notna_str.
      destruct (row_type r), (Frame.has_key row_size s r), (has_name r);
        reflexivity.
    - apply group_keys_NoDup.
    - intros r k Hr Hc Hk. apply group_keys_In. exists r. split; [|exact Hk].
      apply andb_true_iff in Hc. destruct Hc as [Hc _].
      apply (has_key_spec row_size) in Hc.
      apply Hg; [exact Hr | congruence | congruence]. }
  rewrite (map_ext _ _ Hinner).
  rewrite (group_count_sum row_size).
  - apply f_equal. apply filter_ext_in. intros r Hr.
    apply of_top_types_In in Hr. destruct Hr as (_ & t & Et & _).
    unfold Frame.notna_str. rewrite Et. reflexivity.
  - apply group_keys_NoDup.
  - intros r k Hr Hc Hk. apply group_keys_In. exists r. split; [|exact Hk].
    apply andb_true_iff in Hc. destruct Hc as [Hc _].
    apply notna_str_spec in Hc.
    apply Hg; [exact Hr | congruence | exact Hc].
Qed.

(** The sample data set: five records have one of the three types, three
    of them have both a size and a name. *)
Lemma freq_sample :
  freq (table_of menagerie)
  = {| index := ["Large"; "Medium"; "Tiny"]%string;
       columns := ["aberration"; "beast"]%string;
       cells := [[1; 0]; [0; 1]; [0; 1]]%nat |} /\
  src (table_of menagerie)
  = [("MM", 2%nat); ("Unknown", 2%nat); ("VGM", 1%nat)]%string.
Proof. split; vm_compute; reflexivity. Qed.

(* ================================================================== *)
(** * Equal fractions, equal ratings *)

Lemma nearest_Qeq (p q : Q) : p == q -> nearest p = nearest q.
Proof.
  intros H. unfold nearest.
  destruct p as [a b], q as [a' b']. unfold Qeq in H. cbn [Qnum Qden] in *.
  assert (Es : (a <? 0) = (a' <? 0)).
  { destruct (Z.ltb_spec a 0), (Z.ltb_spec a' 0); try reflexivity; nia. }
  rewrite Es. apply signed_nearest_Qeq.
  unfold Qeq. cbn [Qnum Qden].
  rewrite <- (Z.abs_eq (Z.pos b')), <- (Z.abs_eq (Z.pos b)) by lia.
  rewrite <- !Z.abs_mul. now rewrite H.
Qed.

(** X21: two texts of the same fraction get the same rating (["2/8"] and
    ["1/4"], for instance), and the text of a fraction with an integer
    value gets the rating of that integer. *)
Theorem parse_cr_equal_fractions (a b a' b' : Z) :
  0 < b -> 0 < b' ->
  (decimal_digits a <= int_max_str_digits)%nat ->
  (decimal_digits b <= int_max_str_digits)%nat ->
  (decimal_digits a' <= int_max_str_digits)%nat ->
  (decimal_digits b' <= int_max_str_digits)%nat ->
  a * b' = a' * b ->
  parse_cr (PyStr (fraction_text a b)) = parse_cr (PyStr (fraction_text a' b'))
  /\ (b' = 1 ->
      is_inf (nearest (a' # 1)) = false ->
      parse_cr (PyStr (fraction_text a b)) = parse_cr (PyInt a')).
Proof.
  intros Hb Hb' La Lb La' Lb' E.
  assert (Eq : nearest (a # Z.to_pos b) = nearest (a' # Z.to_pos b')).
  { apply nearest_Qeq. unfold Qeq. cbn [Qnum Qden].
    rewrite !Z2Pos.id by lia. exact E. }
  rewrite !parse_cr_fraction_text by assumption. rewrite Eq.
  split; [reflexivity|].
  intros -> Hfin. change (Z.to_pos 1) with 1%positive. rewrite Hfin.
  unfold parse_cr. cbn [is_str andb py_float].
  now rewrite float_of_int_nearest, Hfin.
Qed.

Lemma parse_cr_equal_fractions_witness :
  2 * 4 = 1 * 8 /\
  parse_cr (PyStr (fraction_text 2 8)) = parse_cr (PyStr (fraction_text 1 4)).
Proof.
  split; [reflexivity|].
  apply (parse_cr_equal_fractions 2 8 1 4).
  - lia.
  - lia.
  - apply Nat.leb_le. vm_compute. reflexivity.
  - apply Nat.leb_le. vm_compute. reflexivity.
  - apply Nat.leb_le. vm_compute. reflexivity.
  - apply Nat.leb_le. vm_compute. reflexivity.
  - reflexivity.
Defined.
